(** * The [odin] command line front end (cli/src/cli.ts)

    A shallow embedding of the command router, the option resolution done
    inside the command actions, the interactive question sequences and the
    dispatch wrappers of [cli.ts], followed by the properties of the
    specification that concern them.

    The program is effectful: it writes to the console, prints the help
    text, reads answers from the terminal, calls five collaborators and may
    end the process through [process.exit].  These effects are made explicit
    by a small monad [M]: a computation consumes terminal replies, produces
    a list of observable events and ends in an [outcome]. *)

From Stdlib Require Import ZArith Ascii String List Lia.
From stdpp Require Import base option list strings gmap pretty.

(** ** JavaScript values

    The option bag handed over by the argument parser, the answers of the
    prompting library and the option objects given to the collaborators are
    untyped at run time.  Only the values that can occur are modelled.
    Numbers are exact integers (the rounding of doubles is not modelled). *)

Inductive jsval : Type :=
  | JUndefined
  | JBool (b : bool)
  | JNum (n : Z)
  | JNaN
  | JStr (s : string).

#[global] Instance jsval_eq_dec : EqDecision jsval.
Proof. solve_decision. Defined.

(** [if (v)], [!v], [Boolean(v)] and [v || d]. *)
Definition truthy (v : jsval) : bool :=
  match v with
  | JUndefined => false
  | JBool b => b
  | JNum n => negb (n =? 0)%Z
  | JNaN => false
  | JStr s => negb (String.eqb s "")
  end.

Definition Boolean (v : jsval) : jsval := JBool (truthy v).

Definition js_or (v d : jsval) : jsval := if truthy v then v else d.

(** String conversion, as done by a template literal and by the console. *)
Definition js_to_string (v : jsval) : string :=
  match v with
  | JUndefined => "undefined"
  | JBool true => "true"
  | JBool false => "false"
  | JNum n => pretty n
  | JNaN => "NaN"
  | JStr s => s
  end.

(** A JavaScript object used as a bag of named values; reading a missing
    property gives [undefined]. *)
Definition prop (o : gmap string jsval) (k : string) : jsval :=
  default JUndefined (o !! k).

(** ** Option objects of the collaborators ([./commands])

    A field that the code may leave out is an [option]: [None] is an absent
    property. *)

Record ProxyOptions : Type := { target : jsval }.

Module INewProjectOptions.
Record t : Type := mk {
  name : jsval;
  style : jsval;
  proxy : option ProxyOptions;
  git : option jsval;
  angular : option jsval;
  install : option jsval }.

Definition set_proxy (u : jsval) (o : t) : t :=
  mk (name o) (style o) (Some {| target := u |}) (git o) (angular o) (install o).
Definition set_style (v : jsval) (o : t) : t :=
  mk (name o) v (proxy o) (git o) (angular o) (install o).
Definition set_git (v : jsval) (o : t) : t :=
  mk (name o) (style o) (proxy o) (Some v) (angular o) (install o).
Definition set_angular (v : jsval) (o : t) : t :=
  mk (name o) (style o) (proxy o) (git o) (Some v) (install o).
Definition set_install (v : jsval) (o : t) : t :=
  mk (name o) (style o) (proxy o) (git o) (angular o) (Some v).
End INewProjectOptions.

Module IServeOptions.
Record t : Type := mk {
  port : jsval;
  multiTenant : jsval;
  ionApi : jsval }.
End IServeOptions.

(** ** Observable events and process status *)

Definition error : Type := string.

Inductive call : Type :=
  | NewProject (options : INewProjectOptions.t)
  | ServeProject (options : IServeOptions.t)
  | BuildProject
  | Login
  | SetConfiguration (key value : string).

Inductive event : Type :=
  | ConsoleLog (args : list string)
  | ConsoleError (args : list string)
  | OutputHelp
  | Invoke (c : call)
  | Asked (question : string)
  | Rejected (question : string) (reason : string).

(** One thing the user does at the terminal: a line typed at an input or
    confirm question, or the entry picked in a list question. *)
Inductive reply : Type :=
  | Line (s : string)
  | Pick (n : nat).

(** How a computation ends: with a value, with a thrown error (a rejected
    promise), with [process.exit], or waiting for input that never comes. *)
Inductive outcome (A : Type) : Type :=
  | Ret (a : A)
  | Throw (e : error)
  | Exit (code : Z)
  | Blocked.
Arguments Ret {A} a.
Arguments Throw {A} e.
Arguments Exit {A} code.
Arguments Blocked {A}.

Definition M (A : Type) : Type := list reply → list event * list reply * outcome A.

#[global] Instance M_ret : MRet M := λ A a i, ([], i, Ret a).

#[global] Instance M_bind : MBind M := λ A B f m i,
  match m i with
  | (t, i', Ret a) => let '(t', i'', r) := f a i' in (t ++ t', i'', r)
  | (t, i', Throw e) => (t, i', Throw e)
  | (t, i', Exit c) => (t, i', Exit c)
  | (t, i', Blocked) => (t, i', Blocked)
  end.

Definition emit (e : event) : M unit := λ i, ([e], i, Ret tt).
Definition throw {A} (e : error) : M A := λ i, ([], i, Throw e).
Definition process_exit {A} (code : Z) : M A := λ i, ([], i, Exit code).

(** [try { m } catch (error) { h error }].  [process.exit] is not an
    exception and is not caught. *)
Definition try_catch {A} (m : M A) (h : error → M A) : M A := λ i,
  match m i with
  | (t, i', Throw e) => let '(t', i'', r) := h e i' in (t ++ t', i'', r)
  | r => r
  end.

Definition when_ (b : bool) (m : M unit) : M unit := if b then m else mret tt.

Definition console_log (args : list string) : M unit := emit (ConsoleLog args).
Definition console_error (args : list string) : M unit := emit (ConsoleError args).

(** A collaborator either completes or raises. *)
Definition invoke (c : call) (r : option error) : M unit :=
  emit (Invoke c);;
  match r with
  | None => mret tt
  | Some e => throw e
  end.

(** How the process ends. *)
Inductive status : Type :=
  | Completed
  | Exited (code : Z)
  | UnhandledRejection (e : error)
  | AwaitingInput.

Definition exit_code (s : status) : option Z :=
  match s with
  | Completed => Some 0%Z
  | Exited c => Some c
  | UnhandledRejection _ => None (* decided by the runtime, not by the program *)
  | AwaitingInput => None
  end.

(** ** The environment of a run

    The file system of the working directory, the validator imported from
    [./utils] (which is not part of the file) and the behaviour of the five
    collaborators: [None] when the call completes, [Some e] when it raises
    [e]. *)
Record World : Type := {
  existsSync : string → bool;
  isValidProxyUrl : jsval → bool;
  newProject : INewProjectOptions.t → option error;
  serveProject : IServeOptions.t → option error;
  buildProject : option error;
  login : option error;
  setConfiguration : string → string → option error }.

(** ** Regular expressions and [parseInt]

    The two patterns of the file have the shape [/^[class]+$/]: the whole
    string, which must not be empty, consists of characters of the class. *)

Definition in_range (lo hi c : ascii) : bool :=
  (nat_of_ascii lo <=? nat_of_ascii c)%nat && (nat_of_ascii c <=? nat_of_ascii hi)%nat.

(** [\d] *)
Definition is_digit (c : ascii) : bool := in_range "0" "9" c.

(** [[a-zA-Z0-9-]] *)
Definition is_name_char (c : ascii) : bool :=
  in_range "a" "z" c || in_range "A" "Z" c || in_range "0" "9" c || Ascii.eqb c "-".

(** [s.match(/^[class]+$/) !== null] *)
Definition match_plus (class : ascii → bool) (s : string) : bool :=
  negb (String.eqb s "") && forallb class (list_ascii_of_string s).

Definition digit_value (c : ascii) : Z := Z.of_nat (nat_of_ascii c - 48).

Fixpoint skip_spaces (s : string) : string :=
  match s with
  | String c s' => if Ascii.is_space c then skip_spaces s' else s
  | EmptyString => s
  end.

(** The value of the longest prefix of decimal digits, if there is one. *)
Fixpoint digits_prefix (acc : option Z) (s : string) : option Z :=
  match s with
  | String c s' =>
      if is_digit c
      then digits_prefix (Some (10 * default 0%Z acc + digit_value c)%Z) s'
      else acc
  | EmptyString => acc
  end.

(** [parseInt(v, 10)].  The result is the exact integer that the digits
    spell; the code's is a double, which is that integer up to 2^53. *)
Definition parseInt (v : jsval) : jsval :=
  let s := skip_spaces (js_to_string v) in
  let '(negative, s) :=
    match s with
    | String c s' =>
        if Ascii.eqb c "-" then (true, s')
        else if Ascii.eqb c "+" then (false, s')
        else (false, s)
    | EmptyString => (false, s)
    end in
  match digits_prefix None s with
  | None => JNaN
  | Some n => JNum (if negative then - n else n)
  end.

(** ** The prompting library

    [inquirer.prompt] is given a list of questions and resolves with the
    object of the answers.  A question whose [when] is false for the answers
    collected so far is skipped and leaves no property.  An input question
    is asked again as long as [validate] does not return [true]; an empty
    first line stands for the default. *)

Inductive qtype : Type := TInput | TList | TConfirm.

Module Question.
Record t : Type := mk {
  name : string;
  type : qtype;
  message : string;
  default : jsval;
  choices : list (string * string);          (* name, value *)
  validate : option (string → jsval);
  when : option (gmap string jsval → bool) }.
End Question.

(** What an input question makes of a line that was entered: an empty line
    stands for the default, as long as there is one. *)
Definition filterInput (default : jsval) (input : string) : string :=
  if negb (truthy (JStr input))
  then match default with JStr d => d | _ => "" end
  else input.

Definition run_validate (q : Question.t) (value : string) : jsval :=
  match Question.validate q with
  | Some f => f value
  | None => JBool true
  end.

Definition rejection_message (r : jsval) : string :=
  match r with
  | JStr reason => reason
  | _ => "Invalid input"
  end.

(** An input question whose default is [default] at this attempt.  The
    prompt forgets the default at the first key that is pressed, the return
    key of the first attempt included: the default is in force for the first
    line only, and an empty line after a rejected answer is the empty string.
    A first line that is empty is the return key pressed at the untouched
    prompt. *)
Fixpoint ask_input_with (default : jsval) (q : Question.t) (i : list reply)
  : list event * list reply * outcome jsval :=
  match i with
  | Line s :: i' =>
      let value := filterInput default s in
      match run_validate q value with
      | JBool true => ([], i', Ret (JStr value))
      | r =>
          let '(t, i'', a) := ask_input_with JUndefined q i' in
          (Rejected (Question.name q) (rejection_message r) :: t, i'', a)
      end
  | _ => ([], i, Blocked)
  end.

Definition ask_input (q : Question.t) : M jsval :=
  ask_input_with (Question.default q) q.

(** A confirm question: an empty line is the default, anything else is a
    yes when it starts with [y] or [Y]. *)
Definition confirm_value (q : Question.t) (input : string) : bool :=
  match input with
  | EmptyString =>
      match Question.default q with JBool b => b | _ => true end
  | String c _ => Ascii.eqb c "y" || Ascii.eqb c "Y"
  end.

Definition ask_confirm (q : Question.t) : M jsval := λ i,
  match i with
  | Line s :: i' => ([], i', Ret (JBool (confirm_value q s)))
  | _ => ([], i, Blocked)
  end.

(** A list question: the value of the entry that was picked. *)
Definition ask_list (q : Question.t) : M jsval := λ i,
  match i with
  | Pick n :: i' =>
      match Question.choices q !! n with
      | Some (_, value) => ([], i', Ret (JStr value))
      | None => ([], i, Blocked)
      end
  | _ => ([], i, Blocked)
  end.

Definition ask (q : Question.t) : M jsval :=
  match Question.type q with
  | TInput => ask_input q
  | TList => ask_list q
  | TConfirm => ask_confirm q
  end.

Definition shown (q : Question.t) (answers : gmap string jsval) : bool :=
  match Question.when q with
  | Some f => f answers
  | None => true
  end.

Fixpoint prompt_from (answers : gmap string jsval) (questions : list Question.t)
  : M (gmap string jsval) :=
  match questions with
  | [] => mret answers
  | q :: questions' =>
      if shown q answers
      then
        emit (Asked (Question.name q));;
        value ← ask q;
        prompt_from (<[Question.name q := value]> answers) questions'
      else prompt_from answers questions'
  end.

Definition prompt (questions : list Question.t) : M (gmap string jsval) :=
  prompt_from ∅ questions.

(** ** The argument parser

    What [program.parse] makes of the arguments after the program name:
    nothing, or a command name followed by its positional arguments and the
    bag of the options that were given.  A flag that was given is [true], an
    option with a value holds the string, [--proxy] without a value is
    [true].  The command lines that the parser answers itself, without
    handing control to the code of the file, are not among them: the help
    options [-h] and [--help] and the version option [-V] and [--version],
    which print their text and end the process with code 0, and options that
    are not declared. *)
Inductive CommandLine : Type :=
  | NoArguments
  | Command (name : string) (args : list string) (options : gmap string jsval).

(** The [i]-th positional argument, [undefined] when it was not given. *)
Definition arg (args : list string) (i : nat) : jsval :=
  from_option JStr JUndefined (args !! i).

Section Cli.
Context (w : World).

(** [exit]: the message is printed when it is not empty. *)
Definition exit {A} (message : string) (outputHelp : bool) : M A :=
  when_ (truthy (JStr message)) (console_error ["ERROR:"; message]);;
  when_ outputHelp (emit OutputHelp);;
  process_exit 1.

Definition wrapServe (options : IServeOptions.t) : M unit :=
  (if negb (existsSync w "odin.json")
   then exit "Could not find an Odin configuration file." false
   else mret tt);;
  console_log ["Starting Dev Server..."];;
  try_catch
    (invoke (ServeProject options) (serveProject w options))
    (λ error,
       console_error [error];;
       exit "Serving was aborted because of an error" false).

Definition tab : string := String (ascii_of_nat 9) "".

Definition wrapNew (options : INewProjectOptions.t) : M unit :=
  try_catch
    (invoke (NewProject options) (newProject w options);;
     console_log ["Done!"];;
     console_log ["To continue with the new project, install dependencies and start the server:"];;
     console_log [tab +:+ "cd"; js_to_string (INewProjectOptions.name options)];;
     console_log [tab +:+ "npm install"];;
     console_log [tab +:+ "odin serve"])
    (λ error,
       console_error [error];;
       exit "Failed to create new project" false).

(** *** The wizard for a new project *)

Definition nameQuestion_validate (name : string) : jsval :=
  if negb (match_plus is_name_char name)
  then JStr "The project name can only have letters, numbers and dashes"
  else if existsSync w name
  then JStr "The directory already exists."
  else JBool true.

Definition nameQuestion : Question.t := {|
  Question.name := "projectName";
  Question.type := TInput;
  Question.message := "What is the name of the project?";
  Question.default := JUndefined;
  Question.choices := [];
  Question.validate := Some nameQuestion_validate;
  Question.when := None |}.

Definition proxyQuestion_validate (input : string) : jsval :=
  if negb (isValidProxyUrl w (JStr input))
  then JStr "The URL must look like the following: protocol://hostname:port"
  else JBool true.

Definition proxyQuestion : Question.t := {|
  Question.name := "proxy";
  Question.type := TInput;
  Question.message := "What is the URL of your M3 environment?";
  Question.default := JStr "https://example.com:8080";
  Question.choices := [];
  Question.validate := Some proxyQuestion_validate;
  Question.when := None |}.

Definition frameworkQuestion : Question.t := {|
  Question.name := "framework";
  Question.type := TList;
  Question.message := "Which view framework do you want to use?";
  Question.default := JStr "angular";
  Question.choices := [("Angular", "angular"); ("None", "none")];
  Question.validate := None;
  Question.when := None |}.

Definition styleQuestion : Question.t := {|
  Question.name := "style";
  Question.type := TList;
  Question.message := "Which style library do you want to use?";
  Question.default := JStr "soho";
  Question.choices :=
    [("SoHo (Infor Design System)", "soho"); ("Material Design", "material");
     ("None", "none")];
  Question.validate := None;
  Question.when := None |}.

Definition gitQuestion : Question.t := {|
  Question.name := "git";
  Question.type := TConfirm;
  Question.message := "Should Git be used for the project?";
  Question.default := JBool true;
  Question.choices := [];
  Question.validate := None;
  Question.when := None |}.

Definition installQuestion : Question.t := {|
  Question.name := "install";
  Question.type := TConfirm;
  Question.message := "Should dependencies be installed? This can take a while.";
  Question.default := JBool false;
  Question.choices := [];
  Question.validate := None;
  Question.when := None |}.

Definition inquireNewProject : M unit :=
  answers ← prompt [nameQuestion; frameworkQuestion; styleQuestion;
                    proxyQuestion; gitQuestion; installQuestion];
  let newProjectOptions := {|
    INewProjectOptions.name := prop answers "projectName";
    INewProjectOptions.style := prop answers "style";
    INewProjectOptions.angular :=
      Some (JBool (bool_decide (prop answers "framework" = JStr "angular")));
    INewProjectOptions.proxy := Some {| target := prop answers "proxy" |};
    INewProjectOptions.install := Some (prop answers "install");
    INewProjectOptions.git := Some (prop answers "git") |} in
  wrapNew newProjectOptions.

(** *** The wizard for the development server *)

Definition portQuestion_validate (port : string) : jsval :=
  if negb (match_plus is_digit port)
  then JStr "The port must be a number, e.g 8080"
  else JBool true.

Definition portQuestion : Question.t := {|
  Question.name := "port";
  Question.type := TInput;
  Question.message := "Which port should be used?";
  Question.default := JStr "8080";
  Question.choices := [];
  Question.validate := Some portQuestion_validate;
  Question.when := None |}.

Definition mtQuestion : Question.t := {|
  Question.name := "multiTenant";
  Question.type := TConfirm;
  Question.message := "Enable Multi-Tenant proxy?";
  Question.default := JBool false;
  Question.choices := [];
  Question.validate := None;
  Question.when := None |}.

Definition ionQuestion : Question.t := {|
  Question.name := "ionApi";
  Question.type := TConfirm;
  Question.message := "Use ION API for Multi-Tenant proxy requests?";
  Question.default := JBool false;
  Question.choices := [];
  Question.validate := None;
  Question.when := Some (λ previousAnswers, truthy (prop previousAnswers "multiTenant")) |}.

Definition inquireServeProject : M unit :=
  answers ← prompt [portQuestion; mtQuestion; ionQuestion];
  let port := parseInt (prop answers "port") in
  let multiTenant := Boolean (prop answers "multiTenant") in
  let ionApi := Boolean (prop answers "ionApi") in
  wrapServe {| IServeOptions.port := port;
               IServeOptions.multiTenant := multiTenant;
               IServeOptions.ionApi := ionApi |}.

(** *** The top-level wizard *)

Definition commandQuestion : Question.t := {|
  Question.name := "command";
  Question.type := TList;
  Question.message := "What do you want to do?";
  Question.default := JUndefined;
  Question.choices :=
    [("Create new project", "new"); ("Start development server", "serve");
     ("Build project for production", "build")];
  Question.validate := None;
  Question.when := None |}.

Definition inquireCommand : M unit :=
  commandAnswers ← prompt [commandQuestion];
  let command := prop commandAnswers "command" in
  if bool_decide (command = JStr "new") then inquireNewProject
  else if bool_decide (command = JStr "serve") then inquireServeProject
  else if bool_decide (command = JStr "build")
  then invoke BuildProject (buildProject w)
  else mret tt.

(** *** The actions of the five commands *)

Definition new_action (projectName : jsval) (options : gmap string jsval) : M unit :=
  if negb (truthy projectName) then inquireNewProject
  else
    let newOptions := {|
      INewProjectOptions.name := projectName;
      INewProjectOptions.style := JStr "none";
      INewProjectOptions.proxy := None;
      INewProjectOptions.git := None;
      INewProjectOptions.angular := None;
      INewProjectOptions.install := None |} in
    newOptions ←
      (if truthy (prop options "proxy")
       then
         (if negb (isValidProxyUrl w (prop options "proxy"))
          then exit ("Proxy url '" +:+ js_to_string (prop options "proxy") +:+
                     "' is invalid. It should be of the format: protocol://hostname:port")
                    true
          else mret tt);;
         mret (INewProjectOptions.set_proxy (prop options "proxy") newOptions)
       else mret newOptions);
    let newOptions :=
      if truthy (prop options "material")
      then INewProjectOptions.set_style (JStr "material") newOptions
      else if truthy (prop options "soho")
      then INewProjectOptions.set_style (JStr "soho") newOptions
      else INewProjectOptions.set_style (JStr "none") newOptions in
    let newOptions :=
      if truthy (prop options "skipGit")
      then INewProjectOptions.set_git (JBool false) newOptions
      else INewProjectOptions.set_git (JBool true) newOptions in
    let newOptions :=
      if truthy (prop options "angular")
      then INewProjectOptions.set_angular (JBool true) newOptions
      else newOptions in
    let newOptions :=
      if truthy (prop options "install")
      then INewProjectOptions.set_install (JBool true) newOptions
      else newOptions in
    wrapNew newOptions.

Definition serve_action (options : gmap string jsval) : M unit :=
  wrapServe {|
    IServeOptions.port := js_or (prop options "port") (JNum 8080);
    IServeOptions.multiTenant := Boolean (prop options "multiTenant");
    IServeOptions.ionApi := Boolean (prop options "ionApi") |}.

Definition build_action : M unit :=
  (if negb (existsSync w "odin.json")
   then exit "Could not find an Odin configuration file." false
   else mret tt);;
  console_log ["Building project..."];;
  try_catch
    (invoke BuildProject (buildProject w);;
     console_log ["Project built successfully"])
    (λ error, console_error ["Build failed:"; error]).

Definition set_action (key value : string) : M unit :=
  try_catch
    (invoke (SetConfiguration key value) (setConfiguration w key value))
    (λ error,
       console_error [error];;
       exit "Configuration failed" false).

Definition login_action : M unit :=
  console_log ["Logging in to the configured environment. A separate browser window will open with the login screen."];;
  invoke Login (login w);;
  console_log ["Done! You can now start the development server with 'odin serve --multi-tenant'"].

(** *** The router *)

(** The parser itself refuses a command whose required argument is missing. *)
Definition missingArgument {A} (name : string) : M A :=
  console_error ["error: missing required argument `" +:+ name +:+ "'"];;
  process_exit 1.

(** The registered commands, in the order of their registration. *)
Definition commands : list (string * (list string → gmap string jsval → M unit)) :=
  [ ("new", λ args options, new_action (arg args 0) options);
    ("serve", λ _ options, serve_action options);
    ("build", λ _ _, build_action);
    ("set", λ args _,
       match args with
       | key :: value :: _ => set_action key value
       | [_] => missingArgument "value"
       | [] => missingArgument "key"
       end);
    ("login", λ _ _, login_action) ].

Fixpoint listener (name : string)
    (l : list (string * (list string → gmap string jsval → M unit)))
  : option (list string → gmap string jsval → M unit) :=
  match l with
  | [] => None
  | (n, action) :: l' => if String.eqb n name then Some action else listener name l'
  end.

(** [program.on('command:*', ...)] *)
Definition unknown_command (args : list string) : M unit :=
  let command := arg args 0 in
  exit ("Unknown command '" +:+ js_to_string command +:+ "'") true.

Definition program_parse (argv : CommandLine) : M unit :=
  match argv with
  | NoArguments => mret tt
  | Command name args options =>
      match listener name commands with
      | Some action => action args options
      | None => unknown_command (name :: args)
      end
  end.

Definition main (argv : CommandLine) : M unit :=
  let isWizard := match argv with NoArguments => true | Command _ _ _ => false end in
  when_ isWizard inquireCommand;;
  program_parse argv.

End Cli.

Definition status_of {A} (r : outcome A) : status :=
  match r with
  | Ret _ => Completed
  | Exit code => Exited code
  | Throw e => UnhandledRejection e
  | Blocked => AwaitingInput
  end.

(** A whole run of the program: what was observed and how it ended. *)
Definition run (w : World) (argv : CommandLine) (input : list reply) : list event * status :=
  let '(t, _, r) := main w argv input in (t, status_of r).

(** The collaborator calls of a run, in order. *)
Definition calls (t : list event) : list call :=
  omap (λ e, match e with Invoke c => Some c | _ => None end) t.

(** ** Concrete environments *)

(** Modelled from the spec: [isValidProxyUrl] of [./utils] is not part of the
    file.  The specification gives the accepted shape as
    [<protocol>://<hostname>[:<port>]]: a scheme of letters, a host without
    colon, slash or space, and an optional port of digits. *)
Definition url_shape (s : string) : bool :=
  match index 0 "://" s with
  | None => false
  | Some n =>
      let scheme := substring 0 n s in
      let rest := substring (n + 3) (String.length s - (n + 3)) s in
      let is_letter c := in_range "a" "z" c || in_range "A" "Z" c in
      let is_host_char c :=
        negb (Ascii.eqb c ":" || Ascii.eqb c "/" || Ascii.eqb c " ") in
      match_plus is_letter scheme &&
      match index 0 ":" rest with
      | None => match_plus is_host_char rest
      | Some m =>
          match_plus is_host_char (substring 0 m rest) &&
          match_plus is_digit (substring (m + 1) (String.length rest - (m + 1)) rest)
      end
  end.

Definition spec_isValidProxyUrl (v : jsval) : bool :=
  match v with
  | JStr s => url_shape s
  | _ => false
  end.

(** A working directory that holds the listed entries, with collaborators
    that all complete. *)
Definition quiet_world (entries : list string) : World := {|
  existsSync := λ path, bool_decide (path ∈ entries);
  isValidProxyUrl := spec_isValidProxyUrl;
  newProject := λ _, None;
  serveProject := λ _, None;
  buildProject := None;
  login := None;
  setConfiguration := λ _ _, None |}.

(** The same, with every collaborator raising [e]. *)
Definition failing_world (entries : list string) (e : error) : World := {|
  existsSync := λ path, bool_decide (path ∈ entries);
  isValidProxyUrl := spec_isValidProxyUrl;
  newProject := λ _, Some e;
  serveProject := λ _, Some e;
  buildProject := Some e;
  login := Some e;
  setConfiguration := λ _ _, Some e |}.

(** ** Closed forms and specification-side notions

    These definitions are used to state the properties below; the lemmas
    relate them to the code. *)

(** What a completed call of [newProject] prints. *)
Definition new_success_trace (o : INewProjectOptions.t) : list event :=
  [ Invoke (NewProject o);
    ConsoleLog ["Done!"];
    ConsoleLog ["To continue with the new project, install dependencies and start the server:"];
    ConsoleLog [tab +:+ "cd"; js_to_string (INewProjectOptions.name o)];
    ConsoleLog [tab +:+ "npm install"];
    ConsoleLog [tab +:+ "odin serve"] ].

(** The options that the [new] action resolves from a name and a bag of
    flags, as a closed form of its assignments. *)
Definition resolved_new (projectName : jsval) (options : gmap string jsval)
  : INewProjectOptions.t := {|
  INewProjectOptions.name := projectName;
  INewProjectOptions.style :=
    JStr (if truthy (prop options "material") then "material"
          else if truthy (prop options "soho") then "soho" else "none");
  INewProjectOptions.proxy :=
    if truthy (prop options "proxy")
    then Some {| target := prop options "proxy" |} else None;
  INewProjectOptions.git := Some (JBool (negb (truthy (prop options "skipGit"))));
  INewProjectOptions.angular :=
    if truthy (prop options "angular") then Some (JBool true) else None;
  INewProjectOptions.install :=
    if truthy (prop options "install") then Some (JBool true) else None |}.

(** The options that the new-project wizard builds from its answers. *)
Definition wizard_new (answers : gmap string jsval) : INewProjectOptions.t := {|
  INewProjectOptions.name := prop answers "projectName";
  INewProjectOptions.style := prop answers "style";
  INewProjectOptions.angular :=
    Some (JBool (bool_decide (prop answers "framework" = JStr "angular")));
  INewProjectOptions.proxy := Some {| target := prop answers "proxy" |};
  INewProjectOptions.install := Some (prop answers "install");
  INewProjectOptions.git := Some (prop answers "git") |}.

(** The options that the serve wizard builds from its answers. *)
Definition wizard_serve (answers : gmap string jsval) : IServeOptions.t := {|
  IServeOptions.port := parseInt (prop answers "port");
  IServeOptions.multiTenant := Boolean (prop answers "multiTenant");
  IServeOptions.ionApi := Boolean (prop answers "ionApi") |}.

Definition is_rejection (name : string) (e : event) : Prop :=
  ∃ reason, e = Rejected name reason.

(** The pattern [^[a-zA-Z0-9-]+$] in words: a non-empty string of letters,
    digits and dashes. *)
Definition letter_digit_dash (c : ascii) : Prop :=
  let n := nat_of_ascii c in
  (97 ≤ n ∧ n ≤ 122) ∨ (65 ≤ n ∧ n ≤ 90) ∨ (48 ≤ n ∧ n ≤ 57) ∨ n = 45.

Definition name_pattern (s : string) : Prop :=
  s ≠ "" ∧ ∀ c, In c (list_ascii_of_string s) → letter_digit_dash c.

(** The number that a string of decimal digits spells. *)
Definition decimal_value (s : string) : Z :=
  fold_left (λ acc c, 10 * acc + digit_value c)%Z (list_ascii_of_string s) 0%Z.

(** The pattern [^\d+$] in words. *)
Definition port_pattern (s : string) : Prop :=
  s ≠ "" ∧ ∀ c, In c (list_ascii_of_string s) → 48 ≤ nat_of_ascii c ∧ nat_of_ascii c ≤ 57.

(** The questions put to the user in a run, in order. *)
Definition questions_asked (t : list event) : list string :=
  omap (λ e, match e with Asked q => Some q | _ => None end) t.

(** The events that the prompting library produces. *)
Definition is_prompt_event (e : event) : Prop :=
  match e with
  | Asked _ | Rejected _ _ => True
  | _ => False
  end.

(** A computation that only talks to the user: it produces prompt events
    and either has a value or waits for input. *)
Definition prompts_only {A} (m : M A) : Prop :=
  ∀ i t i' r, m i = (t, i', r) →
    Forall is_prompt_event t ∧ (r = Blocked ∨ ∃ a, r = Ret a).

(** The discipline of a run: at most one collaborator call; the only exit
    code is 1 and an exit comes with an error line; the help text comes only
    with an exit and without any collaborator call. *)
Definition orderly {A} (x : list event * list reply * outcome A) : Prop :=
  let '(t, _, r) := x in
  length (calls t) ≤ 1 ∧
  (∀ c, r = Exit c → c = 1%Z ∧ ∃ args, In (ConsoleError args) t) ∧
  (In OutputHelp t → calls t = [] ∧ r = Exit 1%Z).

(** A computation that does not read the terminal: its events and its
    outcome do not depend on the replies, which it leaves in place, and it
    asks nothing. *)
Definition silent {A} (m : M A) : Prop :=
  ∃ t r, questions_asked t = [] ∧ ∀ i, m i = (t, i, r).

(** * Properties *)

Ltac unfold_M :=
  unfold mbind, M_bind, mret, M_ret, emit, throw, process_exit, try_catch,
    when_, console_log, console_error, invoke, exit in *.

(** ** Running the wrappers and the actions *)

Section Actions.
Context (w : World).

Lemma wrapNew_run (o : INewProjectOptions.t) (i : list reply) :
  wrapNew w o i =
  match newProject w o with
  | None => (new_success_trace o, i, Ret tt)
  | Some e =>
      ([Invoke (NewProject o); ConsoleError [e];
        ConsoleError ["ERROR:"; "Failed to create new project"]], i, Exit 1)
  end.
Proof.
  unfold wrapNew, new_success_trace. unfold_M.
  destruct (newProject w o); reflexivity.
Qed.

Lemma wrapServe_run (o : IServeOptions.t) (i : list reply) :
  wrapServe w o i =
  if existsSync w "odin.json"
  then
    match serveProject w o with
    | None => ([ConsoleLog ["Starting Dev Server..."]; Invoke (ServeProject o)], i, Ret tt)
    | Some e =>
        ([ConsoleLog ["Starting Dev Server..."]; Invoke (ServeProject o);
          ConsoleError [e];
          ConsoleError ["ERROR:"; "Serving was aborted because of an error"]], i, Exit 1)
    end
  else ([ConsoleError ["ERROR:"; "Could not find an Odin configuration file."]], i, Exit 1).
Proof.
  unfold wrapServe. unfold_M.
  destruct (existsSync w "odin.json"); simpl; [|reflexivity].
  destruct (serveProject w o); reflexivity.
Qed.

Lemma build_action_run (i : list reply) :
  build_action w i =
  if existsSync w "odin.json"
  then
    match buildProject w with
    | None =>
        ([ConsoleLog ["Building project..."]; Invoke BuildProject;
          ConsoleLog ["Project built successfully"]], i, Ret tt)
    | Some e =>
        ([ConsoleLog ["Building project..."]; Invoke BuildProject;
          ConsoleError ["Build failed:"; e]], i, Ret tt)
    end
  else ([ConsoleError ["ERROR:"; "Could not find an Odin configuration file."]], i, Exit 1).
Proof.
  unfold build_action. unfold_M.
  destruct (existsSync w "odin.json"); simpl; [|reflexivity].
  destruct (buildProject w); reflexivity.
Qed.

Lemma set_action_run (key value : string) (i : list reply) :
  set_action w key value i =
  match setConfiguration w key value with
  | None => ([Invoke (SetConfiguration key value)], i, Ret tt)
  | Some e =>
      ([Invoke (SetConfiguration key value); ConsoleError [e];
        ConsoleError ["ERROR:"; "Configuration failed"]], i, Exit 1)
  end.
Proof.
  unfold set_action. unfold_M.
  destruct (setConfiguration w key value); reflexivity.
Qed.

Lemma new_action_run (projectName : jsval) (options : gmap string jsval) (i : list reply) :
  truthy projectName = true →
  new_action w projectName options i =
  if truthy (prop options "proxy") && negb (isValidProxyUrl w (prop options "proxy"))
  then
    ([ConsoleError
        ["ERROR:";
         "Proxy url '" +:+ js_to_string (prop options "proxy") +:+
         "' is invalid. It should be of the format: protocol://hostname:port"];
      OutputHelp], i, Exit 1)
  else wrapNew w (resolved_new projectName options) i.
Proof.
  intros Hname. unfold new_action, resolved_new. rewrite Hname. simpl.
  unfold mbind at 1. unfold M_bind.
  destruct (truthy (prop options "proxy")) eqn:Hp; simpl.
  - destruct (isValidProxyUrl w (prop options "proxy")) eqn:Hv; simpl.
    + unfold_M. simpl.
      destruct (truthy (prop options "material")), (truthy (prop options "soho")),
        (truthy (prop options "skipGit")), (truthy (prop options "angular")),
        (truthy (prop options "install")); simpl;
        destruct (wrapNew _ _ _) as [[? ?] ?];
        reflexivity.
    + unfold_M. simpl. reflexivity.
  - unfold_M. simpl.
    destruct (truthy (prop options "material")), (truthy (prop options "soho")),
      (truthy (prop options "skipGit")), (truthy (prop options "angular")),
      (truthy (prop options "install")); simpl;
      destruct (wrapNew _ _ _) as [[? ?] ?];
      reflexivity.
Qed.

End Actions.

(** ** The prompting library *)

Lemma calls_app (t1 t2 : list event) : calls (t1 ++ t2) = calls t1 ++ calls t2.
Proof. unfold calls. apply omap_app. Qed.

Lemma ask_input_with_ret (d : jsval) (q : Question.t) (i : list reply) t i' v :
  ask_input_with d q i = (t, i', Ret v) →
  ∃ value, v = JStr value ∧ run_validate q value = JBool true.
Proof.
  revert d t. induction i as [|[s|n] i IH]; intros d t H; simpl in H; try discriminate.
  destruct (run_validate q (filterInput d s)) as [|[|]| | |m] eqn:Hv;
    try (destruct (ask_input_with JUndefined q i) as [[t0 i0] r0] eqn:Hrest;
         inversion H; subst; exact (IH _ _ Hrest)).
  inversion H; subst. exists (filterInput d s). split; [reflexivity | exact Hv].
Qed.

(** The value of an input question has passed its validator. *)
Lemma ask_input_ret (q : Question.t) (i : list reply) t i' v :
  ask_input q i = (t, i', Ret v) →
  ∃ value, v = JStr value ∧ run_validate q value = JBool true.
Proof. apply ask_input_with_ret. Qed.

Lemma ask_input_with_trace (d : jsval) (q : Question.t) (i : list reply) t i' r :
  ask_input_with d q i = (t, i', r) → Forall (is_rejection (Question.name q)) t.
Proof.
  revert d t. induction i as [|[s|n] i IH]; intros d t H; simpl in H;
    try (inversion H; subst; constructor).
  destruct (run_validate q (filterInput d s)) as [|[|]| | |m] eqn:Hv;
    try (destruct (ask_input_with JUndefined q i) as [[t0 i0] r0] eqn:Hrest;
         inversion H; subst;
         constructor; [eexists; reflexivity | apply (IH _ _ Hrest)]).
  inversion H; subst. constructor.
Qed.

Lemma ask_input_trace (q : Question.t) (i : list reply) t i' r :
  ask_input q i = (t, i', r) → Forall (is_rejection (Question.name q)) t.
Proof. apply ask_input_with_trace. Qed.

Lemma ask_confirm_run (q : Question.t) (i : list reply) t i' r :
  ask_confirm q i = (t, i', r) →
  t = [] ∧ (∀ v, r = Ret v → ∃ b, v = JBool b).
Proof.
  unfold ask_confirm. destruct i as [|[s|n] i]; intros H; inversion H; subst;
    (split; [reflexivity|]); intros v Hv; try discriminate.
  inversion Hv. eexists; reflexivity.
Qed.

Lemma ask_list_run (q : Question.t) (i : list reply) t i' r :
  ask_list q i = (t, i', r) →
  t = [] ∧ (∀ v, r = Ret v → ∃ label value, v = JStr value ∧ In (label, value) (Question.choices q)).
Proof.
  unfold ask_list. destruct i as [|[s|n] i]; intros H; try (inversion H; subst; split; [reflexivity|discriminate]).
  destruct (Question.choices q !! n) as [[label value]|] eqn:Hn;
    inversion H; subst; (split; [reflexivity|]); intros v Hv; try discriminate.
  inversion Hv; subst. exists label, value. split; [reflexivity|].
  apply list_elem_of_In. eapply list_elem_of_lookup_2. exact Hn.
Qed.

(** Asking a question only reports rejected answers of that question. *)
Lemma ask_trace (q : Question.t) (i : list reply) t i' r :
  ask q i = (t, i', r) → Forall (is_rejection (Question.name q)) t.
Proof.
  unfold ask. destruct (Question.type q); intros H.
  - eapply ask_input_trace; exact H.
  - apply ask_list_run in H as [-> _]. constructor.
  - apply ask_confirm_run in H as [-> _]. constructor.
Qed.

Lemma prompt_from_step (a : gmap string jsval) (q : Question.t) qs (i : list reply) :
  prompt_from a (q :: qs) i =
  if shown q a
  then
    match ask q i with
    | (t, i1, Ret v) =>
        let '(t2, i2, r) := prompt_from (<[Question.name q := v]> a) qs i1 in
        (Asked (Question.name q) :: t ++ t2, i2, r)
    | (t, i1, Throw e) => (Asked (Question.name q) :: t, i1, Throw e)
    | (t, i1, Exit c) => (Asked (Question.name q) :: t, i1, Exit c)
    | (t, i1, Blocked) => (Asked (Question.name q) :: t, i1, Blocked)
    end
  else prompt_from a qs i.
Proof.
  simpl. destruct (shown q a); [|reflexivity].
  unfold_M. destruct (ask q i) as [[t i1] [v|e|c|]]; try reflexivity.
  destruct (prompt_from _ qs i1) as [[t2 i2] r]. reflexivity.
Qed.

(** A question that was answered: it was shown, it was asked, and the rest
    of the sequence ran on the answers extended by its value. *)
Lemma prompt_from_asked (a : gmap string jsval) (q : Question.t) qs (i : list reply) t i' a' :
  shown q a = true →
  prompt_from a (q :: qs) i = (t, i', Ret a') →
  ∃ t1 i1 v t2,
    ask q i = (t1, i1, Ret v) ∧
    prompt_from (<[Question.name q := v]> a) qs i1 = (t2, i', Ret a') ∧
    t = Asked (Question.name q) :: t1 ++ t2.
Proof.
  intros Hs. rewrite prompt_from_step, Hs.
  destruct (ask q i) as [[t1 i1] [v|e|c|]]; try discriminate.
  destruct (prompt_from _ qs i1) as [[t2 i2] r] eqn:Hrest.
  intros H; inversion H; subst. exists t1, i1, v, t2. auto.
Qed.

Lemma prompt_from_nil (a : gmap string jsval) (i : list reply) t i' a' :
  prompt_from a [] i = (t, i', Ret a') → t = [] ∧ i' = i ∧ a' = a.
Proof. intros H; inversion H; auto. Qed.

(** No collaborator is called while questions are asked. *)
Lemma prompt_from_calls (a : gmap string jsval) qs (i : list reply) t i' r :
  prompt_from a qs i = (t, i', r) → calls t = [].
Proof.
  revert a i t. induction qs as [|q qs IH]; intros a i t H.
  - inversion H; reflexivity.
  - rewrite prompt_from_step in H. destruct (shown q a); [|eapply IH; exact H].
    assert (Hrej : ∀ t0 i0 r0, ask q i = (t0, i0, r0) → calls t0 = []).
    { intros t0 i0 r0 H0. apply ask_trace in H0.
      induction H0 as [|e l [m ->] _ IHl]; [reflexivity | exact IHl]. }
    destruct (ask q i) as [[t1 i1] [v|e|c|]] eqn:Hask;
      try (inversion H; subst; simpl; eapply Hrej; reflexivity).
    destruct (prompt_from _ qs i1) as [[t2 i2] r2] eqn:Hrest.
    inversion H; subst. change (calls (t1 ++ t2) = []).
    rewrite calls_app, (Hrej _ _ _ eq_refl). simpl. eapply IH; exact Hrest.
Qed.

(** ** The router *)

Lemma listener_unregistered (name : string)
    (l : list (string * (list string → gmap string jsval → M unit))) :
  ¬ In name (map fst l) → listener name l = None.
Proof.
  induction l as [|[n action] l IH]; intros Hn; [reflexivity|].
  simpl. destruct (String.eqb_spec n name) as [->|_].
  - exfalso. apply Hn. left. reflexivity.
  - apply IH. intros Hin. apply Hn. right. exact Hin.
Qed.

Lemma run_command (w : World) (name : string) args options (input : list reply) :
  run w (Command name args options) input =
  let '(t, _, r) :=
    match listener name (commands w) with
    | Some action => action args options input
    | None => unknown_command (name :: args) input
    end in
  (t, status_of r).
Proof.
  unfold run, main, program_parse, when_, mbind, M_bind, mret, M_ret.
  destruct (listener name (commands w)) as [action|].
  - destruct (action args options input) as [[t i'] r]. reflexivity.
  - destruct (unknown_command (name :: args) input) as [[t i'] r]. reflexivity.
Qed.

Lemma run_new (w : World) (projectName : string) args options (input : list reply) :
  run w (Command "new" (projectName :: args) options) input =
  let '(t, _, r) := new_action w (JStr projectName) options input in (t, status_of r).
Proof. rewrite run_command. reflexivity. Qed.

Lemma run_serve (w : World) args options (input : list reply) :
  run w (Command "serve" args options) input =
  let '(t, _, r) := serve_action w options input in (t, status_of r).
Proof. rewrite run_command. reflexivity. Qed.

Lemma run_build (w : World) args options (input : list reply) :
  run w (Command "build" args options) input =
  let '(t, _, r) := build_action w input in (t, status_of r).
Proof. rewrite run_command. reflexivity. Qed.

(** C9: a command name that is none of [new], [serve], [build], [set] and
    [login] makes the process print an error that names the command, print
    the help text and exit with code 1; no collaborator is called. *)
Theorem unknown_command_fails (w : World) (command : string) args options
    (input : list reply) :
  ¬ In command ["new"; "serve"; "build"; "set"; "login"] →
  run w (Command command args options) input =
    ([ConsoleError ["ERROR:"; "Unknown command '" +:+ command +:+ "'"]; OutputHelp],
     Exited 1) ∧
  calls (fst (run w (Command command args options) input)) = [].
Proof.
  intros Hn. rewrite run_command, listener_unregistered by exact Hn.
  split; reflexivity.
Qed.

Lemma unknown_command_fails_witness :
  run (quiet_world ["odin.json"]) (Command "frobnicate" ["x"] ∅) [] =
    ([ConsoleError ["ERROR:"; "Unknown command 'frobnicate'"]; OutputHelp], Exited 1) ∧
  calls (fst (run (quiet_world ["odin.json"]) (Command "frobnicate" ["x"] ∅) [])) = [].
Proof.
  apply (unknown_command_fails (quiet_world ["odin.json"]) "frobnicate" ["x"] ∅ []).
  simpl. intros [H|[H|[H|[H|[H|[]]]]]]; discriminate H.
Defined.

(** ** Option resolution in direct mode *)

(** C6: in direct mode the style is resolved by the first match of
    material, then soho, then none: with the material flag the dispatched
    style is material (never soho, whatever the soho flag), with the soho flag
    alone it is soho, and with neither flag it is none. *)
Theorem style_first_match_wins (w : World) (projectName : string) args
    (options : gmap string jsval) (input : list reply) :
  truthy (JStr projectName) = true →
  truthy (prop options "proxy") = false ∨ isValidProxyUrl w (prop options "proxy") = true →
  ∃ o, calls (fst (run w (Command "new" (projectName :: args) options) input)) = [NewProject o] ∧
    (truthy (prop options "material") = true →
       INewProjectOptions.style o = JStr "material" ∧
       INewProjectOptions.style o ≠ JStr "soho") ∧
    (truthy (prop options "material") = false → truthy (prop options "soho") = true →
       INewProjectOptions.style o = JStr "soho") ∧
    (truthy (prop options "material") = false → truthy (prop options "soho") = false →
       INewProjectOptions.style o = JStr "none").
Proof.
  intros Hname Hproxy. exists (resolved_new (JStr projectName) options).
  rewrite run_new, new_action_run by exact Hname.
  replace (truthy (prop options "proxy") && negb (isValidProxyUrl w (prop options "proxy")))
    with false by (destruct Hproxy as [-> | ->]; [reflexivity | apply eq_sym, andb_false_r]).
  rewrite wrapNew_run. split.
  - destruct (newProject w _); reflexivity.
  - unfold resolved_new; simpl. split; [|split].
    + intros H1. rewrite H1. split; [reflexivity | discriminate].
    + intros H1 H2. rewrite H1, H2. reflexivity.
    + intros H1 H2. rewrite H1, H2. reflexivity.
Qed.

Lemma style_first_match_wins_witness :
  ∃ o, calls (fst (run (quiet_world [])
                   (Command "new" ["app"]
                      (<["material" := JBool true]> (<["soho" := JBool true]> ∅))) []))
       = [NewProject o] ∧
       INewProjectOptions.style o = JStr "material".
Proof.
  destruct (style_first_match_wins (quiet_world []) "app" []
              (<["material" := JBool true]> (<["soho" := JBool true]> ∅)) [])
    as (o & Hcalls & Hm & _ & _).
  - reflexivity.
  - left. reflexivity.
  - exists o. split; [exact Hcalls | apply Hm; reflexivity].
Defined.

(** C7: in direct mode the dispatched options carry a proxy field exactly
    when a proxy input was supplied, a supplied input being a value of the
    proxy option that the code takes as given (the option holds a non-empty
    value); the field then holds that input.  Without the option the field
    is absent altogether. *)
Theorem proxy_field_iff_supplied (w : World) (projectName : string) args
    (options : gmap string jsval) (input : list reply) :
  truthy (JStr projectName) = true →
  (∀ o, In (NewProject o) (calls (fst (run w (Command "new" (projectName :: args) options) input))) →
     (is_Some (INewProjectOptions.proxy o) ↔ truthy (prop options "proxy") = true) ∧
     (∀ p, INewProjectOptions.proxy o = Some p → target p = prop options "proxy")) ∧
  (options !! "proxy" = None →
     ∃ o, calls (fst (run w (Command "new" (projectName :: args) options) input)) = [NewProject o] ∧
          INewProjectOptions.proxy o = None) ∧
  (truthy (prop options "proxy") = true → isValidProxyUrl w (prop options "proxy") = true →
     ∃ o, calls (fst (run w (Command "new" (projectName :: args) options) input)) = [NewProject o] ∧
          INewProjectOptions.proxy o = Some {| target := prop options "proxy" |}).
Proof.
  intros Hname. rewrite run_new, new_action_run by exact Hname.
  assert (Hcalls : ∀ i, calls (fst (let '(t, _, r) :=
              wrapNew w (resolved_new (JStr projectName) options) i in (t, status_of r)))
            = [NewProject (resolved_new (JStr projectName) options)]).
  { intros i. rewrite wrapNew_run. destruct (newProject w _); reflexivity. }
  split; [|split].
  - intros o Ho.
    destruct (truthy (prop options "proxy")) eqn:Hp; simpl in Ho.
    + destruct (isValidProxyUrl w (prop options "proxy")); simpl in Ho; [|contradiction].
      rewrite Hcalls in Ho. destruct Ho as [Ho|[]]. inversion Ho; subst o.
      unfold resolved_new; simpl. rewrite Hp. split.
      * split; [reflexivity | intros _; eexists; reflexivity].
      * intros u Hu. inversion Hu. reflexivity.
    + rewrite Hcalls in Ho. destruct Ho as [Ho|[]]. inversion Ho; subst o.
      unfold resolved_new; simpl. rewrite Hp. split.
      * split; [intros [u Hu]; discriminate Hu | discriminate].
      * intros u Hu. discriminate Hu.
  - intros Hnone. exists (resolved_new (JStr projectName) options).
    assert (Hp : truthy (prop options "proxy") = false)
      by (unfold prop; rewrite Hnone; reflexivity).
    rewrite Hp. simpl. rewrite Hcalls. split; [reflexivity|].
    unfold resolved_new; simpl. rewrite Hp. reflexivity.
  - intros Hp Hv. exists (resolved_new (JStr projectName) options).
    rewrite Hp, Hv. simpl. rewrite Hcalls. split; [reflexivity|].
    unfold resolved_new; simpl. rewrite Hp. reflexivity.
Qed.

Lemma proxy_field_iff_supplied_witness :
  (∃ o, calls (fst (run (quiet_world []) (Command "new" ["app"] ∅) [])) = [NewProject o] ∧
        INewProjectOptions.proxy o = None) ∧
  (∃ o, calls (fst (run (quiet_world [])
                      (Command "new" ["app"] (<["proxy" := JStr "https://m3.example.com:54008"]> ∅)) []))
        = [NewProject o] ∧
        INewProjectOptions.proxy o =
          Some {| target := JStr "https://m3.example.com:54008" |}).
Proof.
  split.
  - destruct (proxy_field_iff_supplied (quiet_world []) "app" [] ∅ [] eq_refl)
      as (_ & H & _).
    apply H. reflexivity.
  - destruct (proxy_field_iff_supplied (quiet_world []) "app" []
                (<["proxy" := JStr "https://m3.example.com:54008"]> ∅) [] eq_refl)
      as (_ & _ & H).
    apply H; reflexivity.
Defined.

(** ** The question sequences *)

Lemma inquireNewProject_run (w : World) (i : list reply) :
  inquireNewProject w i =
  match prompt [nameQuestion w; frameworkQuestion; styleQuestion;
                proxyQuestion w; gitQuestion; installQuestion] i with
  | (t1, i1, Ret answers) =>
      let '(t2, i2, r) := wrapNew w (wizard_new answers) i1 in (t1 ++ t2, i2, r)
  | (t1, i1, Throw e) => (t1, i1, Throw e)
  | (t1, i1, Exit c) => (t1, i1, Exit c)
  | (t1, i1, Blocked) => (t1, i1, Blocked)
  end.
Proof. reflexivity. Qed.

(** What the six questions of the new-project wizard leave in the answers. *)
Lemma new_prompt_answers (w : World) (i : list reply) t i' answers :
  prompt [nameQuestion w; frameworkQuestion; styleQuestion;
          proxyQuestion w; gitQuestion; installQuestion] i = (t, i', Ret answers) →
  ∃ n fw st u g ins,
    answers = <["install" := JBool ins]> (<["git" := JBool g]> (<["proxy" := JStr u]>
               (<["style" := JStr st]> (<["framework" := JStr fw]>
               (<["projectName" := JStr n]> ∅))))) ∧
    nameQuestion_validate w n = JBool true ∧
    proxyQuestion_validate w u = JBool true ∧
    In fw ["angular"; "none"] ∧
    In st ["soho"; "material"; "none"] ∧
    In (Asked "proxy") t.
Proof.
  unfold prompt. intros H.
  apply prompt_from_asked in H as (t1 & i1 & v1 & r1 & Ha1 & H & ->); [|reflexivity].
  apply prompt_from_asked in H as (t2 & i2 & v2 & r2 & Ha2 & H & ->); [|reflexivity].
  apply prompt_from_asked in H as (t3 & i3 & v3 & r3 & Ha3 & H & ->); [|reflexivity].
  apply prompt_from_asked in H as (t4 & i4 & v4 & r4 & Ha4 & H & ->); [|reflexivity].
  apply prompt_from_asked in H as (t5 & i5 & v5 & r5 & Ha5 & H & ->); [|reflexivity].
  apply prompt_from_asked in H as (t6 & i6 & v6 & r6 & Ha6 & H & ->); [|reflexivity].
  apply prompt_from_nil in H as (-> & -> & ->).
  apply ask_input_ret in Ha1 as (n & -> & Hv1).
  apply ask_list_run in Ha2 as [_ Ha2]. destruct (Ha2 _ eq_refl) as (lb2 & fw & -> & Hfw).
  apply ask_list_run in Ha3 as [_ Ha3]. destruct (Ha3 _ eq_refl) as (lb3 & st & -> & Hst).
  apply ask_input_ret in Ha4 as (u & -> & Hv4).
  apply ask_confirm_run in Ha5 as [_ Ha5]. destruct (Ha5 _ eq_refl) as (g & ->).
  apply ask_confirm_run in Ha6 as [_ Ha6]. destruct (Ha6 _ eq_refl) as (ins & ->).
  exists n, fw, st, u, g, ins.
  split; [reflexivity|]. split; [exact Hv1|]. split; [exact Hv4|].
  split; [|split].
  - simpl in Hfw. destruct Hfw as [Hfw|[Hfw|[]]]; inversion Hfw; simpl; auto.
  - simpl in Hst. destruct Hst as [Hst|[Hst|[Hst|[]]]]; inversion Hst; simpl; auto.
  - simpl. right. apply in_or_app. right. right. apply in_or_app. right.
    right. apply in_or_app. right. left. reflexivity.
Qed.

(** *** The validators of the questions *)

Lemma match_plus_spec (class : ascii → bool) (s : string) :
  match_plus class s = true ↔
  s ≠ "" ∧ ∀ c, In c (list_ascii_of_string s) → class c = true.
Proof.
  unfold match_plus. rewrite andb_true_iff, negb_true_iff, forallb_forall.
  destruct (String.eqb_spec s ""); intuition congruence.
Qed.

Lemma is_name_char_spec (c : ascii) : is_name_char c = true ↔ letter_digit_dash c.
Proof.
  unfold is_name_char, letter_digit_dash, in_range.
  rewrite !orb_true_iff, !andb_true_iff, !Nat.leb_le. simpl.
  assert (Ascii.eqb c "-" = true ↔ nat_of_ascii c = 45) as ->; [|tauto].
  destruct (Ascii.eqb_spec c "-") as [->|Hne]; split; try reflexivity; try discriminate.
  intros H45. exfalso. apply Hne.
  rewrite <- (ascii_nat_embedding c), H45. reflexivity.
Qed.

Lemma is_digit_spec (c : ascii) :
  is_digit c = true ↔ 48 ≤ nat_of_ascii c ∧ nat_of_ascii c ≤ 57.
Proof. unfold is_digit, in_range. rewrite andb_true_iff, !Nat.leb_le. reflexivity. Qed.

Lemma name_pattern_spec (s : string) : match_plus is_name_char s = true ↔ name_pattern s.
Proof.
  rewrite match_plus_spec. unfold name_pattern.
  split; intros [Hne Hall]; (split; [exact Hne|]); intros c Hc;
    apply is_name_char_spec, Hall, Hc.
Qed.

Lemma port_pattern_spec (s : string) : match_plus is_digit s = true ↔ port_pattern s.
Proof.
  rewrite match_plus_spec. unfold port_pattern.
  split; intros [Hne Hall]; (split; [exact Hne|]); intros c Hc;
    apply is_digit_spec, Hall, Hc.
Qed.

Lemma nameQuestion_validate_true (w : World) (name : string) :
  nameQuestion_validate w name = JBool true ↔
  name_pattern name ∧ existsSync w name = false.
Proof.
  rewrite <- name_pattern_spec. unfold nameQuestion_validate.
  destruct (match_plus is_name_char name), (existsSync w name); simpl;
    intuition discriminate.
Qed.

(** C8: the project-name validator accepts exactly the strings that match
    [^[a-zA-Z0-9-]+$] and do not name an existing entry; every other string
    gets a non-empty reason, the invalid-characters message when the pattern
    fails and the directory-exists message when the pattern holds and the
    entry exists, and the two reasons differ. *)
Theorem name_validator_verdicts (w : World) (name : string) :
  (name_pattern name → existsSync w name = false →
     nameQuestion_validate w name = JBool true) ∧
  (¬ name_pattern name →
     nameQuestion_validate w name =
       JStr "The project name can only have letters, numbers and dashes") ∧
  (name_pattern name → existsSync w name = true →
     nameQuestion_validate w name = JStr "The directory already exists.") ∧
  (¬ (name_pattern name ∧ existsSync w name = false) →
     ∃ reason, nameQuestion_validate w name = JStr reason ∧ reason ≠ "") ∧
  (∀ other, ¬ name_pattern name → name_pattern other → existsSync w other = true →
     nameQuestion_validate w name ≠ nameQuestion_validate w other).
Proof.
  assert (Hbad : ¬ name_pattern name →
     nameQuestion_validate w name =
       JStr "The project name can only have letters, numbers and dashes").
  { rewrite <- name_pattern_spec. unfold nameQuestion_validate.
    destruct (match_plus is_name_char name); [intros H; elim H; reflexivity | reflexivity]. }
  assert (Htaken : ∀ n, name_pattern n → existsSync w n = true →
     nameQuestion_validate w n = JStr "The directory already exists.").
  { intros n Hn Hex. apply name_pattern_spec in Hn.
    unfold nameQuestion_validate. rewrite Hn, Hex. reflexivity. }
  split; [|split; [|split; [|split]]].
  - intros Hp He. apply nameQuestion_validate_true. split; assumption.
  - exact Hbad.
  - apply Htaken.
  - intros Hnot. rewrite <- name_pattern_spec in Hnot. unfold nameQuestion_validate.
    destruct (match_plus is_name_char name); simpl.
    + destruct (existsSync w name).
      * eexists; split; [reflexivity | discriminate].
      * elim Hnot. split; reflexivity.
    + eexists; split; [reflexivity | discriminate].
  - intros other Hn Ho He. rewrite (Hbad Hn), (Htaken other Ho He). discriminate.
Qed.

Lemma name_validator_verdicts_witness :
  nameQuestion_validate (quiet_world ["legacy-app"]) "my-app-2" = JBool true ∧
  nameQuestion_validate (quiet_world ["legacy-app"]) "my app" =
    JStr "The project name can only have letters, numbers and dashes" ∧
  nameQuestion_validate (quiet_world ["legacy-app"]) "legacy-app" =
    JStr "The directory already exists.".
Proof.
  assert (Hp : ∀ s, match_plus is_name_char s = true → name_pattern s)
    by (intros s; apply name_pattern_spec).
  split; [|split].
  - apply (name_validator_verdicts (quiet_world ["legacy-app"]) "my-app-2");
      [apply Hp; reflexivity | reflexivity].
  - apply (name_validator_verdicts (quiet_world ["legacy-app"]) "my app").
    intros H. apply name_pattern_spec in H. discriminate H.
  - apply (name_validator_verdicts (quiet_world ["legacy-app"]) "legacy-app");
      [apply Hp; reflexivity | reflexivity].
Defined.

Lemma proxyQuestion_validate_true (w : World) (input : string) :
  proxyQuestion_validate w input = JBool true ↔ isValidProxyUrl w (JStr input) = true.
Proof.
  unfold proxyQuestion_validate.
  destruct (isValidProxyUrl w (JStr input)); simpl; intuition discriminate.
Qed.

Lemma portQuestion_validate_true (port : string) :
  portQuestion_validate port = JBool true ↔ port_pattern port.
Proof.
  rewrite <- port_pattern_spec. unfold portQuestion_validate.
  destruct (match_plus is_digit port); simpl; intuition discriminate.
Qed.

(** *** The new-project wizard *)

Lemma inquireNewProject_calls (w : World) (i : list reply) t i' r :
  inquireNewProject w i = (t, i', r) →
  match prompt [nameQuestion w; frameworkQuestion; styleQuestion;
                proxyQuestion w; gitQuestion; installQuestion] i with
  | (_, _, Ret answers) => calls t = [NewProject (wizard_new answers)]
  | _ => calls t = []
  end.
Proof.
  rewrite inquireNewProject_run.
  destruct (prompt _ i) as [[t1 i1] [answers|e|c|]] eqn:Hp;
    pose proof (prompt_from_calls _ _ _ _ _ _ Hp) as Hc;
    try (intros H; inversion H; subst; exact Hc).
  rewrite wrapNew_run.
  destruct (newProject w _); intros H; inversion H; subst;
    rewrite calls_app, Hc; reflexivity.
Qed.

(** C10: every options object that the new-project wizard hands to
    [newProject] has a proxy field, and its target is the answer given to the
    proxy question, which is asked in every such run; once the six questions
    are answered the call is made. *)
Theorem wizard_always_has_proxy (w : World) (i : list reply) t i' r :
  inquireNewProject w i = (t, i', r) →
  (∀ o, In (NewProject o) (calls t) →
     ∃ t1 i1 answers u,
       prompt [nameQuestion w; frameworkQuestion; styleQuestion;
               proxyQuestion w; gitQuestion; installQuestion] i = (t1, i1, Ret answers) ∧
       In (Asked "proxy") t1 ∧
       answers !! "proxy" = Some (JStr u) ∧
       isValidProxyUrl w (JStr u) = true ∧
       INewProjectOptions.proxy o = Some {| target := JStr u |}) ∧
  (∀ t1 i1 answers,
     prompt [nameQuestion w; frameworkQuestion; styleQuestion;
             proxyQuestion w; gitQuestion; installQuestion] i = (t1, i1, Ret answers) →
     ∃ o, calls t = [NewProject o] ∧ is_Some (INewProjectOptions.proxy o)).
Proof.
  intros H. apply inquireNewProject_calls in H.
  destruct (prompt _ i) as [[t1 i1] [answers|e|c|]] eqn:Hp; split;
    try (intros o Ho; rewrite H in Ho; contradiction);
    try (intros ? ? ? Heq; discriminate Heq).
  - intros o Ho. rewrite H in Ho. destruct Ho as [Ho|[]]. inversion Ho; subst o.
    destruct (new_prompt_answers _ _ _ _ _ Hp) as (n & fw & st & u & g & ins & -> & _ & Hu & _ & _ & Hasked).
    eexists t1, i1, _, u. split; [reflexivity|]. split; [exact Hasked|].
    split; [reflexivity|]. split; [apply proxyQuestion_validate_true, Hu | reflexivity].
  - intros t1' i1' answers' Heq. inversion Heq; subst.
    exists (wizard_new answers'). split; [exact H | eexists; reflexivity].
Qed.

Lemma wizard_always_has_proxy_witness :
  ∃ o, calls (fst (fst (inquireNewProject (quiet_world [])
                          [Line "app"; Pick 0; Pick 0; Line ""; Line ""; Line ""])))
       = [NewProject o] ∧ is_Some (INewProjectOptions.proxy o).
Proof.
  eapply (wizard_always_has_proxy (quiet_world [])
            [Line "app"; Pick 0; Pick 0; Line ""; Line ""; Line ""]).
  - vm_compute. reflexivity.
  - vm_compute. reflexivity.
Defined.

(** In the wizard the name has passed the validator. *)
Lemma wizard_name_valid (w : World) (i : list reply) t i' r :
  inquireNewProject w i = (t, i', r) →
  ∀ o, In (NewProject o) (calls t) →
  ∃ n, INewProjectOptions.name o = JStr n ∧ name_pattern n ∧ existsSync w n = false.
Proof.
  intros H o Ho. apply inquireNewProject_calls in H.
  destruct (prompt _ i) as [[t1 i1] [answers|e|c|]] eqn:Hp;
    rewrite H in Ho; try contradiction.
  destruct Ho as [Ho|[]]. inversion Ho; subst o.
  destruct (new_prompt_answers _ _ _ _ _ Hp) as (n & fw & st & u & g & ins & -> & Hn & _).
  exists n. split; [reflexivity|]. apply nameQuestion_validate_true, Hn.
Qed.

(** *** The serve wizard *)

Lemma inquireServeProject_run (i : list reply) (w : World) :
  inquireServeProject w i =
  match prompt [portQuestion; mtQuestion; ionQuestion] i with
  | (t1, i1, Ret answers) =>
      let '(t2, i2, r) := wrapServe w (wizard_serve answers) i1 in (t1 ++ t2, i2, r)
  | (t1, i1, Throw e) => (t1, i1, Throw e)
  | (t1, i1, Exit c) => (t1, i1, Exit c)
  | (t1, i1, Blocked) => (t1, i1, Blocked)
  end.
Proof. reflexivity. Qed.

Lemma digit_facts (c : ascii) :
  is_digit c = true →
  Ascii.is_space c = false ∧ Ascii.eqb c "-" = false ∧ Ascii.eqb c "+" = false ∧
  (0 ≤ digit_value c)%Z.
Proof.
  destruct c as [[] [] [] [] [] [] [] []]; intros H; try discriminate H;
    repeat split; try reflexivity; discriminate.
Qed.

Lemma digits_prefix_all (s : string) (acc : option Z) :
  forallb is_digit (list_ascii_of_string s) = true →
  (∀ a, acc = Some a → (0 ≤ a)%Z) →
  (acc = None → s ≠ "") →
  ∃ n, digits_prefix acc s = Some n ∧ (0 ≤ n)%Z.
Proof.
  revert acc. induction s as [|c s IH]; intros acc Hall Hacc Hne; simpl.
  - destruct acc as [a|]; [exists a; auto | elim (Hne eq_refl); reflexivity].
  - simpl in Hall. apply andb_true_iff in Hall as [Hc Hall]. rewrite Hc.
    apply IH; [exact Hall | | discriminate].
    intros a Ha. inversion Ha; subst a.
    destruct (digit_facts c Hc) as (_ & _ & _ & Hd).
    destruct acc as [a|]; simpl; [specialize (Hacc a eq_refl)|]; lia.
Qed.

(** A string of digits is parsed to a natural number. *)
Lemma parseInt_digits (p : string) :
  port_pattern p → ∃ n, parseInt (JStr p) = JNum n ∧ (0 ≤ n)%Z.
Proof.
  intros Hp. apply port_pattern_spec in Hp. unfold match_plus in Hp.
  apply andb_true_iff in Hp as [Hne Hall].
  destruct p as [|c p]; [discriminate Hne|].
  pose proof Hall as Hall'. simpl in Hall'. apply andb_true_iff in Hall' as [Hc _].
  destruct (digit_facts c Hc) as (Hs & Hm & Hplus & _).
  unfold parseInt. simpl js_to_string. simpl skip_spaces. rewrite Hs, Hm, Hplus.
  destruct (digits_prefix_all (String c p) None Hall) as (n & Hn & Hpos);
    [discriminate | discriminate |].
  rewrite Hn. exists n. split; [reflexivity | exact Hpos].
Qed.

(** What the three questions of the serve wizard leave in the answers. *)
Lemma serve_prompt_port (i : list reply) t i' answers :
  prompt [portQuestion; mtQuestion; ionQuestion] i = (t, i', Ret answers) →
  ∃ p, answers !! "port" = Some (JStr p) ∧ port_pattern p.
Proof.
  unfold prompt. intros H.
  apply prompt_from_asked in H as (t1 & i1 & v1 & r1 & Ha1 & H & ->); [|reflexivity].
  apply prompt_from_asked in H as (t2 & i2 & v2 & r2 & Ha2 & H & ->); [|reflexivity].
  apply ask_input_ret in Ha1 as (p & -> & Hv1).
  apply ask_confirm_run in Ha2 as [-> Ha2]. destruct (Ha2 _ eq_refl) as (b & ->).
  exists p. split; [|apply portQuestion_validate_true, Hv1].
  destruct b.
  - apply prompt_from_asked in H as (t3 & i3 & v3 & r3 & Ha3 & H & ->); [|reflexivity].
    apply prompt_from_nil in H as (-> & -> & ->). reflexivity.
  - rewrite prompt_from_step in H.
    replace (shown ionQuestion _) with false in H by reflexivity.
    apply prompt_from_nil in H as (-> & -> & ->). reflexivity.
Qed.

Lemma ask_input_accept (q : Question.t) (s : string) (i : list reply) :
  run_validate q (filterInput (Question.default q) s) = JBool true →
  ask_input q (Line s :: i) = ([], i, Ret (JStr (filterInput (Question.default q) s))).
Proof. intros H. unfold ask_input. simpl. rewrite H. reflexivity. Qed.

Lemma port_line_accepted (p : string) (i : list reply) :
  p ≠ "" → portQuestion_validate p = JBool true →
  ask portQuestion (Line p :: i) = ([], i, Ret (JStr p)).
Proof.
  intros Hne Hp.
  assert (Hf : filterInput (Question.default portQuestion) p = p).
  { unfold filterInput. simpl. destruct (String.eqb_spec p ""); [contradiction | reflexivity]. }
  change (ask portQuestion (Line p :: i)) with (ask_input portQuestion (Line p :: i)).
  rewrite ask_input_accept; rewrite Hf; [reflexivity | exact Hp].
Qed.

(** The serve wizard runs to its end on a valid port and the answers to the
    confirm questions that are shown. *)
Lemma serve_prompt_without_ion (p m : string) (rest : list reply) :
  port_pattern p →
  confirm_value mtQuestion m = false →
  prompt [portQuestion; mtQuestion; ionQuestion] (Line p :: Line m :: rest) =
    ([Asked "port"; Asked "multiTenant"], rest,
     Ret (<["multiTenant" := JBool false]> (<["port" := JStr p]> ∅))).
Proof.
  intros Hp Hm. pose proof Hp as [Hne _].
  apply portQuestion_validate_true in Hp.
  unfold prompt. rewrite prompt_from_step.
  replace (shown portQuestion ∅) with true by reflexivity.
  assert (Hask : ask portQuestion (Line p :: Line m :: rest) = ([], Line m :: rest, Ret (JStr p))).
  { apply (port_line_accepted p _ Hne Hp). }
  rewrite Hask, prompt_from_step.
  replace (shown mtQuestion _) with true by reflexivity.
  replace (ask mtQuestion (Line m :: rest))
    with (([] : list event), rest, Ret (JBool (confirm_value mtQuestion m))) by reflexivity.
  rewrite Hm, prompt_from_step.
  replace (shown ionQuestion _) with false by reflexivity.
  reflexivity.
Qed.

Lemma serve_prompt_with_ion (p m x : string) (rest : list reply) :
  port_pattern p →
  confirm_value mtQuestion m = true →
  prompt [portQuestion; mtQuestion; ionQuestion] (Line p :: Line m :: Line x :: rest) =
    ([Asked "port"; Asked "multiTenant"; Asked "ionApi"], rest,
     Ret (<["ionApi" := JBool (confirm_value ionQuestion x)]>
            (<["multiTenant" := JBool true]> (<["port" := JStr p]> ∅)))).
Proof.
  intros Hp Hm. pose proof Hp as [Hne _].
  apply portQuestion_validate_true in Hp.
  unfold prompt. rewrite prompt_from_step.
  replace (shown portQuestion ∅) with true by reflexivity.
  assert (Hask : ask portQuestion (Line p :: Line m :: Line x :: rest)
                 = ([], Line m :: Line x :: rest, Ret (JStr p))).
  { apply (port_line_accepted p _ Hne Hp). }
  rewrite Hask, prompt_from_step.
  replace (shown mtQuestion _) with true by reflexivity.
  replace (ask mtQuestion (Line m :: Line x :: rest))
    with (([] : list event), Line x :: rest, Ret (JBool (confirm_value mtQuestion m)))
    by reflexivity.
  rewrite Hm, prompt_from_step.
  replace (shown ionQuestion _) with true by reflexivity.
  reflexivity.
Qed.

Lemma wrapServe_asks_nothing (w : World) (o : IServeOptions.t) (i : list reply)
    t i' r (q : string) :
  wrapServe w o i = (t, i', r) → ¬ In (Asked q) t.
Proof.
  rewrite wrapServe_run.
  destruct (existsSync w "odin.json"); [destruct (serveProject w o)|];
    intros H; inversion H; subst; simpl; intros Hin;
    repeat (destruct Hin as [Hin|Hin]; try discriminate Hin); contradiction.
Qed.

(** The trace of the serve wizard begins with the trace of its questions. *)
Lemma inquireServeProject_extends (w : World) (i : list reply) t1 i1
    (r1 : outcome (gmap string jsval)) t i' r :
  prompt [portQuestion; mtQuestion; ionQuestion] i = (t1, i1, r1) →
  inquireServeProject w i = (t, i', r) →
  ∃ t2, t = t1 ++ t2.
Proof.
  intros Hp H. rewrite inquireServeProject_run, Hp in H.
  destruct r1 as [answers|e|c|];
    try (inversion H; subst; exists []; rewrite app_nil_r; reflexivity).
  destruct (wrapServe w _ i1) as [[t2 i2] r2]. inversion H; subst.
  exists t2. reflexivity.
Qed.

(** The serve wizard once the port question has its answer. *)
Lemma serve_prompt_after_port (i : list reply) tp ip (p : jsval) :
  ask portQuestion i = (tp, ip, Ret p) →
  prompt [portQuestion; mtQuestion; ionQuestion] i =
  let '(t2, i2, r2) := prompt_from (<["port" := p]> ∅) [mtQuestion; ionQuestion] ip in
  (Asked "port" :: tp ++ t2, i2, r2).
Proof.
  intros Hp. unfold prompt. rewrite prompt_from_step.
  replace (shown portQuestion ∅) with true by reflexivity.
  rewrite Hp. reflexivity.
Qed.

(** C4: in the serve wizard, take a run in which the port question got its
    answer and the line [m] is the reply to the multi-tenant question.  When
    that reply means false, the ion-api question is not asked, the answers
    that the wizard collects have no ionApi key, and the wizard goes on to the
    dispatch with them.  When it means true, the ion-api question is asked,
    and once it is replied to with a line [x], the answers hold under ionApi
    the boolean that [x] means, and the wizard goes on to the dispatch with
    them. *)
Theorem serve_wizard_ion_question (w : World) (i : list reply) tp (p : jsval)
    (m : string) (rest : list reply) t i' r :
  ask portQuestion i = (tp, Line m :: rest, Ret p) →
  inquireServeProject w i = (t, i', r) →
  if confirm_value mtQuestion m
  then
    In (Asked "ionApi") t ∧
    ∀ x rest', rest = Line x :: rest' →
      ∃ t1 answers,
        prompt [portQuestion; mtQuestion; ionQuestion] i = (t1, rest', Ret answers) ∧
        answers !! "multiTenant" = Some (JBool true) ∧
        answers !! "ionApi" = Some (JBool (confirm_value ionQuestion x)) ∧
        (let '(t2, i2, r2) := wrapServe w (wizard_serve answers) rest' in
         (t1 ++ t2, i2, r2)) = (t, i', r)
  else
    ¬ In (Asked "ionApi") t ∧
    ∃ t1 answers,
      prompt [portQuestion; mtQuestion; ionQuestion] i = (t1, rest, Ret answers) ∧
      answers !! "multiTenant" = Some (JBool false) ∧
      answers !! "ionApi" = None ∧
      (let '(t2, i2, r2) := wrapServe w (wizard_serve answers) rest in
       (t1 ++ t2, i2, r2)) = (t, i', r).
Proof.
  intros Hp Hrun. pose proof (ask_trace _ _ _ _ _ Hp) as Hrej. simpl in Hrej.
  pose proof (serve_prompt_after_port _ _ _ _ Hp) as Hprompt.
  rewrite prompt_from_step in Hprompt.
  replace (shown mtQuestion _) with true in Hprompt by reflexivity.
  replace (ask mtQuestion (Line m :: rest))
    with (([] : list event), rest, Ret (JBool (confirm_value mtQuestion m)))
    in Hprompt by reflexivity.
  destruct (confirm_value mtQuestion m).
  - split.
    + destruct (prompt_from _ [ionQuestion] rest) as [[t3 i3] r3] eqn:Hion.
      destruct (inquireServeProject_extends _ _ _ _ _ _ _ _ Hprompt Hrun) as [t2 ->].
      rewrite prompt_from_step in Hion.
      replace (shown ionQuestion _) with true in Hion by reflexivity.
      assert (Hhead : ∃ t3', t3 = Asked "ionApi" :: t3').
      { destruct (ask ionQuestion rest) as [[ta ia] [v|e|c|]];
          try (destruct (prompt_from _ [] ia) as [[tb ib] rb]);
          inversion Hion; eexists; reflexivity. }
      destruct Hhead as [t3' ->].
      apply in_or_app. left. right. apply in_or_app. right. right. left. reflexivity.
    + intros x rest' ->.
      rewrite prompt_from_step in Hprompt.
      replace (shown ionQuestion _) with true in Hprompt by reflexivity.
      replace (ask ionQuestion (Line x :: rest'))
        with (([] : list event), rest', Ret (JBool (confirm_value ionQuestion x)))
        in Hprompt by reflexivity.
      cbn [prompt_from] in Hprompt. unfold mret, M_ret in Hprompt.
      rewrite inquireServeProject_run, Hprompt in Hrun.
      eexists _, _. split; [exact Hprompt|].
      split; [reflexivity|]. split; [reflexivity | exact Hrun].
  - rewrite prompt_from_step in Hprompt.
    replace (shown ionQuestion _) with false in Hprompt by reflexivity.
    cbn [prompt_from] in Hprompt. unfold mret, M_ret in Hprompt.
    rewrite inquireServeProject_run, Hprompt in Hrun. split.
    + destruct (wrapServe w _ rest) as [[t2 i2] r2] eqn:Hw.
      inversion Hrun; subst. intros Hin.
      destruct Hin as [Hin|Hin]; [discriminate Hin|].
      apply in_app_or in Hin as [Hin|Hin];
        [|exact (wrapServe_asks_nothing _ _ _ _ _ _ _ Hw Hin)].
      apply in_app_or in Hin as [Hin|Hin].
      * rewrite Forall_forall in Hrej. apply list_elem_of_In in Hin.
        destruct (Hrej _ Hin) as [reason Hreason]. discriminate Hreason.
      * simpl in Hin. destruct Hin as [Hin|[]]. discriminate Hin.
    + eexists _, _. split; [exact Hprompt|].
      split; [reflexivity|]. split; [reflexivity | exact Hrun].
Qed.

Lemma serve_wizard_ion_question_witness :
  ¬ In (Asked "ionApi")
      (fst (fst (inquireServeProject (quiet_world ["odin.json"]) [Line "3000"; Line "n"]))) ∧
  In (Asked "ionApi")
     (fst (fst (inquireServeProject (quiet_world ["odin.json"])
                  [Line "3000"; Line "y"; Line "n"]))).
Proof.
  split.
  - destruct (inquireServeProject (quiet_world ["odin.json"]) [Line "3000"; Line "n"])
      as [[t i'] r] eqn:H.
    pose proof (serve_wizard_ion_question (quiet_world ["odin.json"])
                  [Line "3000"; Line "n"] [] (JStr "3000") "n" [] t i' r eq_refl H) as Hq.
    change (confirm_value mtQuestion "n") with false in Hq. apply Hq.
  - destruct (inquireServeProject (quiet_world ["odin.json"])
                [Line "3000"; Line "y"; Line "n"]) as [[t i'] r] eqn:H.
    pose proof (serve_wizard_ion_question (quiet_world ["odin.json"])
                  [Line "3000"; Line "y"; Line "n"] [] (JStr "3000") "y" [Line "n"]
                  t i' r eq_refl H) as Hq.
    change (confirm_value mtQuestion "y") with true in Hq. apply Hq.
Defined.

(** In the wizard the port given to [serveProject] is a number. *)
Lemma wizard_port_is_number (w : World) (i : list reply) t i' r :
  inquireServeProject w i = (t, i', r) →
  ∀ o, In (ServeProject o) (calls t) →
  ∃ n, IServeOptions.port o = JNum n ∧ (0 ≤ n)%Z.
Proof.
  rewrite inquireServeProject_run. intros H o Ho.
  destruct (prompt _ i) as [[t1 i1] [answers|e|c|]] eqn:Hp;
    pose proof (prompt_from_calls _ _ _ _ _ _ Hp) as Hc;
    try (inversion H; subst; rewrite Hc in Ho; contradiction).
  destruct (serve_prompt_port _ _ _ _ Hp) as (p & Hport & Hpat).
  destruct (parseInt_digits p Hpat) as (n & Hn & Hpos).
  rewrite wrapServe_run in H.
  assert (Ho' : o = wizard_serve answers).
  { destruct (existsSync w "odin.json"); [destruct (serveProject w _)|];
      inversion H; subst; rewrite calls_app, Hc in Ho; simpl in Ho;
      try contradiction; destruct Ho as [Ho|[]]; inversion Ho; reflexivity. }
  subst o. exists n. unfold wizard_serve, prop. simpl. rewrite Hport. simpl.
  split; [exact Hn | exact Hpos].
Qed.

(** ** Direct mode *)

(** [odin serve] without flags, in a project directory. *)
Lemma serve_no_flags (w : World) args (input : list reply) :
  existsSync w "odin.json" = true →
  calls (fst (run w (Command "serve" args ∅) input)) =
    [ServeProject {| IServeOptions.port := JNum 8080;
                     IServeOptions.multiTenant := JBool false;
                     IServeOptions.ionApi := JBool false |}].
Proof.
  intros He. rewrite run_serve. unfold serve_action. rewrite wrapServe_run, He.
  replace (prop ∅ "port") with JUndefined by reflexivity.
  replace (prop ∅ "multiTenant") with JUndefined by reflexivity.
  replace (prop ∅ "ionApi") with JUndefined by reflexivity.
  simpl. destruct (serveProject w _); reflexivity.
Qed.

(** In the wizard an empty line at the port question stands for 8080. *)
Example wizard_default_port :
  calls (fst (run (quiet_world ["odin.json"]) NoArguments [Pick 1; Line ""; Line ""])) =
    [ServeProject {| IServeOptions.port := JNum 8080;
                     IServeOptions.multiTenant := JBool false;
                     IServeOptions.ionApi := JBool false |}].
Proof. vm_compute. reflexivity. Qed.

(** A port given on the command line is handed on as it was typed. *)
Lemma serve_flag_port (w : World) args (options : gmap string jsval) (p : string)
    (input : list reply) :
  existsSync w "odin.json" = true →
  options !! "port" = Some (JStr p) → p ≠ "" →
  ∃ o, calls (fst (run w (Command "serve" args options) input)) = [ServeProject o] ∧
       IServeOptions.port o = JStr p.
Proof.
  intros He Hp Hne. rewrite run_serve. unfold serve_action. rewrite wrapServe_run, He.
  eexists. split; [destruct (serveProject w _); reflexivity|].
  unfold prop, js_or. rewrite Hp. simpl.
  destruct (String.eqb_spec p ""); [contradiction | reflexivity].
Qed.

(** Without the marker file [odin build] stops before the build. *)
Lemma build_requires_marker (w : World) args options (input : list reply) :
  existsSync w "odin.json" = false →
  run w (Command "build" args options) input =
    ([ConsoleError ["ERROR:"; "Could not find an Odin configuration file."]], Exited 1).
Proof. intros He. rewrite run_build, build_action_run, He. reflexivity. Qed.

(** The build choice of the top-level wizard calls [buildProject] at once,
    whatever the working directory holds. *)
Lemma wizard_build_calls (w : World) (rest : list reply) :
  calls (fst (run w NoArguments (Pick 2 :: rest))) = [BuildProject].
Proof.
  unfold run, main, when_, inquireCommand.
  unfold mbind at 1. unfold M_bind at 1.
  unfold mbind at 1. unfold M_bind at 1.
  replace (prompt [commandQuestion] (Pick 2 :: rest))
    with ([Asked "command"], rest, Ret (<["command" := JStr "build"]> (∅ : gmap string jsval)))
    by reflexivity.
  replace (prop (<["command" := JStr "build"]> ∅) "command") with (JStr "build")
    by reflexivity.
  simpl. unfold_M. destruct (buildProject w); reflexivity.
Qed.

(** *** Errors raised by the collaborators *)

Lemma new_error_terminal (w : World) (projectName : string) args options
    (input : list reply) (e : error) :
  truthy (JStr projectName) = true →
  truthy (prop options "proxy") = false ∨ isValidProxyUrl w (prop options "proxy") = true →
  newProject w (resolved_new (JStr projectName) options) = Some e →
  run w (Command "new" (projectName :: args) options) input =
    ([Invoke (NewProject (resolved_new (JStr projectName) options));
      ConsoleError [e]; ConsoleError ["ERROR:"; "Failed to create new project"]],
     Exited 1).
Proof.
  intros Hname Hproxy He. rewrite run_new, new_action_run by exact Hname.
  replace (truthy (prop options "proxy") && negb (isValidProxyUrl w (prop options "proxy")))
    with false by (destruct Hproxy as [-> | ->]; [reflexivity | apply eq_sym, andb_false_r]).
  rewrite wrapNew_run, He. reflexivity.
Qed.

Lemma serve_error_terminal (w : World) (o : IServeOptions.t) (i : list reply) (e : error) :
  existsSync w "odin.json" = true →
  serveProject w o = Some e →
  wrapServe w o i =
    ([ConsoleLog ["Starting Dev Server..."]; Invoke (ServeProject o); ConsoleError [e];
      ConsoleError ["ERROR:"; "Serving was aborted because of an error"]], i, Exit 1).
Proof. intros Hex He. rewrite wrapServe_run, Hex, He. reflexivity. Qed.

Lemma set_error_terminal (w : World) (key value : string) args options
    (input : list reply) (e : error) :
  setConfiguration w key value = Some e →
  run w (Command "set" (key :: value :: args) options) input =
    ([Invoke (SetConfiguration key value); ConsoleError [e];
      ConsoleError ["ERROR:"; "Configuration failed"]], Exited 1).
Proof.
  intros He. rewrite run_command.
  change (listener "set" (commands w)) with
    (Some (λ (args : list string) (_ : gmap string jsval),
             match args with
             | key :: value :: _ => set_action w key value
             | [_] => missingArgument "value"
             | [] => missingArgument "key"
             end)).
  cbv beta iota. rewrite set_action_run, He. reflexivity.
Qed.

(** An error of [buildProject] is printed, and the process goes on to its
    normal end. *)
Lemma build_error_completes (w : World) args options (input : list reply) (e : error) :
  existsSync w "odin.json" = true →
  buildProject w = Some e →
  run w (Command "build" args options) input =
    ([ConsoleLog ["Building project..."]; Invoke BuildProject;
      ConsoleError ["Build failed:"; e]], Completed).
Proof. intros Hex He. rewrite run_build, build_action_run, Hex, He. reflexivity. Qed.

(** An error of [login] is not handled by the program at all. *)
Lemma login_error_unhandled (w : World) args options (input : list reply) (e : error) :
  login w = Some e →
  run w (Command "login" args options) input =
    ([ConsoleLog ["Logging in to the configured environment. A separate browser window will open with the login screen."];
      Invoke Login], UnhandledRejection e).
Proof.
  intros He. rewrite run_command.
  change (listener "login" (commands w)) with
    (Some (λ (_ : list string) (_ : gmap string jsval), login_action w)).
  cbv beta iota. unfold login_action. unfold_M. rewrite He. reflexivity.
Qed.

(** ** Where the program departs from the specification *)

(** C1: the specification wants every collaborator error to end the process
    with the error detail, a failure summary and a non-zero exit status.
    When [buildProject] raises in a project directory, [odin build] prints
    the error and completes normally, and the build choice of the wizard
    leaves the error unhandled; when [login] raises, [odin login] prints no
    summary and leaves the error unhandled.  In none of these runs does the
    program call [process.exit]. *)
Theorem build_and_login_errors_not_terminal :
  run (failing_world ["odin.json"] "boom") (Command "build" [] ∅) [] =
    ([ConsoleLog ["Building project..."]; Invoke BuildProject;
      ConsoleError ["Build failed:"; "boom"]], Completed) ∧
  exit_code (snd (run (failing_world ["odin.json"] "boom") (Command "build" [] ∅) [])) = Some 0%Z ∧
  run (failing_world ["odin.json"] "boom") (Command "login" [] ∅) [] =
    ([ConsoleLog ["Logging in to the configured environment. A separate browser window will open with the login screen."];
      Invoke Login], UnhandledRejection "boom") ∧
  run (failing_world ["odin.json"] "boom") NoArguments [Pick 2] =
    ([Asked "command"; Invoke BuildProject], UnhandledRejection "boom").
Proof. repeat split; vm_compute; reflexivity. Qed.

(** C2: the specification wants the port never to be left as a raw string
    in direct mode.  [odin serve --port 3000] in a project directory hands
    the string ["3000"] to [serveProject], not the number 3000. *)
Theorem serve_flag_port_stays_string :
  run (quiet_world ["odin.json"]) (Command "serve" [] (<["port" := JStr "3000"]> ∅)) [] =
    ([ConsoleLog ["Starting Dev Server..."];
      Invoke (ServeProject {| IServeOptions.port := JStr "3000";
                              IServeOptions.multiTenant := JBool false;
                              IServeOptions.ionApi := JBool false |})],
     Completed) ∧
  parseInt (JStr "3000") = JNum 3000 ∧
  JStr "3000" ≠ JNum 3000.
Proof. repeat split; try (vm_compute; reflexivity). discriminate. Qed.

(** C3: the specification wants [buildProject] never to be called when
    [odin.json] is missing, on every path.  In a directory without the file,
    the build choice of the top-level wizard calls [buildProject] and the
    process completes normally, while [odin build] exits with code 1 before
    the call. *)
Theorem wizard_build_skips_marker_check :
  existsSync (quiet_world []) "odin.json" = false ∧
  run (quiet_world []) NoArguments [Pick 2] =
    ([Asked "command"; Invoke BuildProject], Completed) ∧
  run (quiet_world []) (Command "build" [] ∅) [] =
    ([ConsoleError ["ERROR:"; "Could not find an Odin configuration file."]], Exited 1).
Proof. repeat split; vm_compute; reflexivity. Qed.

(** C5: the specification wants every name given to [newProject] to
    consist of letters, digits and dashes and not to name an existing entry.
    In direct mode the name is handed on unchecked: [odin new "bad name!"]
    and, next to an existing entry [taken], [odin new taken] both call
    [newProject] with a name that the validator of the wizard rejects. *)
Theorem flag_mode_name_unchecked :
  calls (fst (run (quiet_world ["taken"]) (Command "new" ["bad name!"] ∅) [])) =
    [NewProject (resolved_new (JStr "bad name!") ∅)] ∧
  INewProjectOptions.name (resolved_new (JStr "bad name!") ∅) = JStr "bad name!" ∧
  ¬ name_pattern "bad name!" ∧
  nameQuestion_validate (quiet_world ["taken"]) "bad name!" =
    JStr "The project name can only have letters, numbers and dashes" ∧
  calls (fst (run (quiet_world ["taken"]) (Command "new" ["taken"] ∅) [])) =
    [NewProject (resolved_new (JStr "taken") ∅)] ∧
  INewProjectOptions.name (resolved_new (JStr "taken") ∅) = JStr "taken" ∧
  nameQuestion_validate (quiet_world ["taken"]) "taken" =
    JStr "The directory already exists." ∧
  existsSync (quiet_world ["taken"]) "taken" = true.
Proof.
  repeat split; try (vm_compute; reflexivity).
  intros H. apply name_pattern_spec in H. discriminate H.
Qed.

(** * Further properties of the program *)

(** ** The discipline of a run *)

Ltac solve_orderly :=
  unfold orderly; simpl; split; [lia | split];
  [ intros c Hc;
    first [ discriminate Hc
          | inversion Hc; split;
            [ reflexivity
            | eexists; repeat first [left; reflexivity | right] ] ]
  | intros Hin; repeat (destruct Hin as [Hin|Hin]; try discriminate Hin);
    first [ contradiction | split; reflexivity ] ].

Lemma prompt_events_calls (t : list event) :
  Forall is_prompt_event t → calls t = [] ∧ ¬ In OutputHelp t.
Proof.
  induction 1 as [|e t He _ [IHc IHh]]; [split; [reflexivity | intros []]|].
  destruct e; try contradiction; (split; [exact IHc|]);
    intros [Hin|Hin]; try discriminate Hin; exact (IHh Hin).
Qed.

Lemma ask_prompts_only (q : Question.t) : prompts_only (ask q).
Proof.
  intros i t i' r H. split.
  - apply ask_trace in H. eapply Forall_impl; [exact H|].
    intros e [m ->]. exact I.
  - unfold ask in H. destruct (Question.type q).
    + unfold ask_input in H. revert H. generalize (Question.default q) as d.
      revert t. induction i as [|[s|n] i IH]; intros t d H; simpl in H;
        try (inversion H; left; reflexivity).
      destruct (run_validate q (filterInput d s)) as [|[|]| | |m];
        try (destruct (ask_input_with JUndefined q i) as [[t0 i0] r0] eqn:Hrest;
             inversion H; subst; eapply IH; exact Hrest).
      inversion H. right. eexists; reflexivity.
    + unfold ask_list in H. destruct i as [|[s|n] i];
        try (inversion H; left; reflexivity).
      destruct (Question.choices q !! n) as [[label value]|]; inversion H;
        [right; eexists; reflexivity | left; reflexivity].
    + unfold ask_confirm in H. destruct i as [|[s|n] i]; inversion H;
        [left; reflexivity | right; eexists; reflexivity | left; reflexivity].
Qed.

Lemma prompt_from_prompts_only (a : gmap string jsval) (qs : list Question.t) :
  prompts_only (prompt_from a qs).
Proof.
  revert a. induction qs as [|q qs IH]; intros a i t i' r H.
  - inversion H. split; [constructor | right; eexists; reflexivity].
  - rewrite prompt_from_step in H. destruct (shown q a); [|eapply IH; exact H].
    destruct (ask q i) as [[t1 i1] r1] eqn:Hask.
    destruct (ask_prompts_only q _ _ _ _ Hask) as [Hev Hr].
    destruct r1 as [v|e|c|]; try (destruct Hr as [Hr|[? Hr]]; discriminate Hr).
    + destruct (prompt_from _ qs i1) as [[t2 i2] r2] eqn:Hrest.
      destruct (IH _ _ _ _ _ Hrest) as [Hev2 Hr2].
      inversion H; subst. split; [|exact Hr2].
      constructor; [exact I | apply Forall_app; split; assumption].
    + inversion H; subst. split; [|left; reflexivity].
      constructor; [exact I | exact Hev].
Qed.

(** Questions first, one orderly action afterwards: the whole is orderly. *)
Lemma orderly_after_prompt {A B} (m : M A) (f : A → M B) (i : list reply) :
  prompts_only m →
  (∀ a i', orderly (f a i')) →
  orderly ((m ≫= f) i).
Proof.
  intros Hm Hf. unfold mbind, M_bind.
  destruct (m i) as [[t1 i1] r1] eqn:Hmi.
  destruct (Hm _ _ _ _ Hmi) as [Hev Hr].
  destruct (prompt_events_calls _ Hev) as [Hc Hh].
  destruct r1 as [a|e|c|]; try (destruct Hr as [Hr|[? Hr]]; discriminate Hr).
  - specialize (Hf a i1). destruct (f a i1) as [[t2 i2] r2].
    unfold orderly in *. destruct Hf as (H1 & H2 & H3).
    rewrite calls_app, Hc. simpl. split; [exact H1 | split].
    + intros c Hcode. destruct (H2 c Hcode) as [-> [args Hargs]].
      split; [reflexivity|]. exists args. apply in_or_app. right. exact Hargs.
    + intros Hin. apply in_app_or in Hin as [Hin|Hin]; [contradiction | exact (H3 Hin)].
  - unfold orderly. rewrite Hc. simpl. split; [lia | split].
    + intros c Hcode. discriminate Hcode.
    + intros Hin. contradiction.
Qed.

Section Orderly.
Context (w : World).

Lemma wrapNew_orderly (o : INewProjectOptions.t) (i : list reply) :
  orderly (wrapNew w o i).
Proof. rewrite wrapNew_run. destruct (newProject w o); solve_orderly. Qed.

Lemma wrapServe_orderly (o : IServeOptions.t) (i : list reply) :
  orderly (wrapServe w o i).
Proof.
  rewrite wrapServe_run.
  destruct (existsSync w "odin.json"); [destruct (serveProject w o)|]; solve_orderly.
Qed.

Lemma inquireNewProject_orderly (i : list reply) : orderly (inquireNewProject w i).
Proof.
  apply orderly_after_prompt; [apply prompt_from_prompts_only|].
  intros answers i'. apply wrapNew_orderly.
Qed.

Lemma inquireServeProject_orderly (i : list reply) : orderly (inquireServeProject w i).
Proof.
  apply orderly_after_prompt; [apply prompt_from_prompts_only|].
  intros answers i'. apply wrapServe_orderly.
Qed.

Lemma inquireCommand_orderly (i : list reply) : orderly (inquireCommand w i).
Proof.
  apply orderly_after_prompt; [apply prompt_from_prompts_only|].
  intros answers i'. cbv beta zeta.
  destruct (bool_decide (_ = JStr "new")); [apply inquireNewProject_orderly|].
  destruct (bool_decide (_ = JStr "serve")); [apply inquireServeProject_orderly|].
  destruct (bool_decide (_ = JStr "build")); [|solve_orderly].
  unfold_M. destruct (buildProject w); solve_orderly.
Qed.

Lemma new_action_orderly (projectName : jsval) (options : gmap string jsval)
    (i : list reply) :
  orderly (new_action w projectName options i).
Proof.
  destruct (truthy projectName) eqn:Hname.
  - rewrite new_action_run by exact Hname.
    destruct (_ && _); [solve_orderly | apply wrapNew_orderly].
  - unfold new_action. rewrite Hname. apply inquireNewProject_orderly.
Qed.

Lemma listener_In (name : string)
    (l : list (string * (list string → gmap string jsval → M unit))) action :
  listener name l = Some action → In (name, action) l.
Proof.
  induction l as [|[n a] l IH]; [discriminate|]. simpl.
  destruct (String.eqb_spec n name) as [->|_].
  - intros H; inversion H. left. reflexivity.
  - intros H. right. exact (IH H).
Qed.

Lemma unknown_command_run (name : string) args (i : list reply) :
  unknown_command (name :: args) i =
  ([ConsoleError ["ERROR:"; "Unknown command '" +:+ name +:+ "'"]; OutputHelp], i, Exit 1).
Proof. reflexivity. Qed.

Lemma program_parse_orderly (argv : CommandLine) (i : list reply) :
  orderly (program_parse w argv i).
Proof.
  destruct argv as [|name args options]; [solve_orderly|].
  unfold program_parse. destruct (listener name (commands w)) as [action|] eqn:Hl.
  - apply listener_In in Hl.
    destruct Hl as [Hl|[Hl|[Hl|[Hl|[Hl|[]]]]]]; inversion Hl; subst.
    + apply new_action_orderly.
    + apply wrapServe_orderly.
    + rewrite build_action_run.
      destruct (existsSync w "odin.json"); [destruct (buildProject w)|]; solve_orderly.
    + destruct args as [|key [|value args]]; try solve_orderly.
      rewrite set_action_run. destruct (setConfiguration w key value); solve_orderly.
    + unfold login_action. unfold_M. destruct (login w); solve_orderly.
  - rewrite unknown_command_run. solve_orderly.
Qed.

Lemma main_orderly (argv : CommandLine) (i : list reply) : orderly (main w argv i).
Proof.
  destruct argv as [|name args options].
  - pose proof (inquireCommand_orderly i) as H.
    unfold main, when_, program_parse, mbind, M_bind, mret, M_ret.
    destruct (inquireCommand w i) as [[t i'] [[]|e|c|]]; try exact H.
    rewrite app_nil_r. exact H.
  - pose proof (program_parse_orderly (Command name args options) i) as H.
    unfold main, when_, mbind, M_bind, mret, M_ret.
    destruct (program_parse w (Command name args options) i) as [[t i'] r]. exact H.
Qed.

End Orderly.

(** X1: in every run in which the parser hands control to the code of the
    file (a command with its arguments and options, a command that is not
    known, or no argument at all), whatever the replies and the environment,
    an end through [process.exit] has code 1 and comes after an error line.
    The help and version options, which the parser answers itself with
    code 0, are no such runs. *)
Theorem exit_code_is_one (w : World) (argv : CommandLine) (input : list reply) (c : Z) :
  snd (run w argv input) = Exited c →
  c = 1%Z ∧ ∃ args, In (ConsoleError args) (fst (run w argv input)).
Proof.
  pose proof (main_orderly w argv input) as H. unfold run.
  destruct (main w argv input) as [[t i'] r]. destruct H as (_ & H & _).
  simpl. destruct r; simpl; intros Hc; inversion Hc; subst. apply H. reflexivity.
Qed.

Lemma exit_code_is_one_witness :
  (1 = 1)%Z ∧
  ∃ args, In (ConsoleError args) (fst (run (quiet_world []) (Command "serve" [] ∅) [])).
Proof.
  apply (exit_code_is_one (quiet_world []) (Command "serve" [] ∅) [] 1). reflexivity.
Defined.

(** X2: no run calls more than one collaborator. *)
Theorem at_most_one_call (w : World) (argv : CommandLine) (input : list reply) :
  length (calls (fst (run w argv input))) ≤ 1.
Proof.
  pose proof (main_orderly w argv input) as H. unfold run.
  destruct (main w argv input) as [[t i'] r]. destruct H as (H & _). exact H.
Qed.

(** X3: in every run in which the parser hands control to the code of the
    file (a command with its arguments and options, a command that is not
    known, or no argument at all), the help text is printed only when no
    collaborator is called and the process exits with code 1.  The help
    option, which the parser answers itself with code 0, is no such run. *)
Theorem help_only_with_usage_error (w : World) (argv : CommandLine) (input : list reply) :
  In OutputHelp (fst (run w argv input)) →
  calls (fst (run w argv input)) = [] ∧ snd (run w argv input) = Exited 1.
Proof.
  pose proof (main_orderly w argv input) as H. unfold run.
  destruct (main w argv input) as [[t i'] r]. destruct H as (_ & _ & H).
  simpl. intros Hin. destruct (H Hin) as [Hc ->]. split; [exact Hc | reflexivity].
Qed.

Lemma help_only_with_usage_error_witness :
  calls (fst (run (quiet_world ["odin.json"])
                (Command "new" ["app"] (<["proxy" := JStr "nope"]> ∅)) [])) = [] ∧
  snd (run (quiet_world ["odin.json"])
         (Command "new" ["app"] (<["proxy" := JStr "nope"]> ∅)) []) = Exited 1.
Proof.
  apply (help_only_with_usage_error (quiet_world ["odin.json"])
           (Command "new" ["app"] (<["proxy" := JStr "nope"]> ∅)) []).
  vm_compute. right. left. reflexivity.
Defined.

(** ** Direct mode does not talk to the user *)

Section Silent.
Context (w : World).

Lemma wrapNew_silent (o : INewProjectOptions.t) : silent (wrapNew w o).
Proof.
  destruct (newProject w o) as [e|] eqn:He.
  - eexists _, _. split; [|intros i; rewrite wrapNew_run, He; reflexivity]. reflexivity.
  - eexists _, _. split; [|intros i; rewrite wrapNew_run, He; reflexivity]. reflexivity.
Qed.

Lemma wrapServe_silent (o : IServeOptions.t) : silent (wrapServe w o).
Proof.
  destruct (existsSync w "odin.json") eqn:Hex; [destruct (serveProject w o) as [e|] eqn:He|];
    eexists _, _;
    (split; [|intros i; rewrite wrapServe_run, Hex, ?He; reflexivity]); reflexivity.
Qed.

Lemma build_action_silent : silent (build_action w).
Proof.
  destruct (existsSync w "odin.json") eqn:Hex; [destruct (buildProject w) as [e|] eqn:He|];
    eexists _, _;
    (split; [|intros i; rewrite build_action_run, Hex, ?He; reflexivity]); reflexivity.
Qed.

Lemma set_action_silent (key value : string) : silent (set_action w key value).
Proof.
  destruct (setConfiguration w key value) as [e|] eqn:He;
    eexists _, _;
    (split; [|intros i; rewrite set_action_run, He; reflexivity]); reflexivity.
Qed.

Lemma login_action_silent : silent (login_action w).
Proof.
  destruct (login w) as [e|] eqn:He;
    eexists _, _;
    (split; [|intros i; unfold login_action; unfold_M; rewrite He; reflexivity]);
    reflexivity.
Qed.

Lemma new_action_silent (projectName : jsval) (options : gmap string jsval) :
  truthy projectName = true → silent (new_action w projectName options).
Proof.
  intros Hname.
  destruct (truthy (prop options "proxy") && negb (isValidProxyUrl w (prop options "proxy")))
    eqn:Hp.
  - eexists _, _. split; [|intros i; rewrite new_action_run, Hp by exact Hname; reflexivity].
    reflexivity.
  - destruct (wrapNew_silent (resolved_new projectName options)) as (t & r & Hq & Hrun).
    exists t, r. split; [exact Hq|].
    intros i. rewrite new_action_run, Hp by exact Hname. apply Hrun.
Qed.

Lemma program_parse_silent (name : string) args (options : gmap string jsval) :
  (name = "new" → truthy (arg args 0) = true) →
  silent (program_parse w (Command name args options)).
Proof.
  intros Hnew. unfold program_parse.
  destruct (listener name (commands w)) as [action|] eqn:Hl.
  - apply listener_In in Hl.
    destruct Hl as [Hl|[Hl|[Hl|[Hl|[Hl|[]]]]]]; inversion Hl; subst.
    + apply new_action_silent, Hnew. reflexivity.
    + apply wrapServe_silent.
    + apply build_action_silent.
    + destruct args as [|key [|value args]];
        [ eexists _, _; split; [|intros i; reflexivity]; reflexivity
        | eexists _, _; split; [|intros i; reflexivity]; reflexivity
        | apply set_action_silent ].
    + apply login_action_silent.
  - eexists _, _. split; [|intros i; apply unknown_command_run]. reflexivity.
Qed.

End Silent.

(** X4: a command given on the command line never talks to the user, with
    the one exception of [new] without a project name: the run asks no
    question and is the same whatever is typed at the terminal. *)
Theorem direct_mode_ignores_terminal (w : World) (name : string) args
    (options : gmap string jsval) (input : list reply) :
  (name = "new" → truthy (arg args 0) = true) →
  questions_asked (fst (run w (Command name args options) input)) = [] ∧
  run w (Command name args options) input = run w (Command name args options) [].
Proof.
  intros Hnew.
  destruct (program_parse_silent w name args options Hnew) as (t & r & Hq & Hrun).
  assert (Hmain : ∀ i, run w (Command name args options) i = (t, status_of r)).
  { intros i. unfold run, main, when_, mbind, M_bind, mret, M_ret.
    rewrite Hrun. reflexivity. }
  rewrite !Hmain. split; [exact Hq | reflexivity].
Qed.

Lemma direct_mode_ignores_terminal_witness :
  questions_asked (fst (run (quiet_world ["odin.json"]) (Command "new" ["app"] ∅)
                          [Line "other"; Pick 1])) = [] ∧
  run (quiet_world ["odin.json"]) (Command "new" ["app"] ∅) [Line "other"; Pick 1] =
  run (quiet_world ["odin.json"]) (Command "new" ["app"] ∅) [].
Proof.
  apply (direct_mode_ignores_terminal (quiet_world ["odin.json"]) "new" ["app"] ∅
           [Line "other"; Pick 1]).
  intros _. reflexivity.
Defined.

(** X5: [odin new] without a project name, or with an empty one, runs the
    new-project wizard, and every flag given with it is ignored. *)
Theorem new_without_name_runs_wizard (w : World) args (options : gmap string jsval)
    (input : list reply) :
  truthy (arg args 0) = false →
  run w (Command "new" args options) input =
    (let '(t, _, r) := inquireNewProject w input in (t, status_of r)) ∧
  run w (Command "new" args options) input = run w (Command "new" args ∅) input.
Proof.
  intros Hname.
  assert (H : ∀ o, run w (Command "new" args o) input =
                   (let '(t, _, r) := inquireNewProject w input in (t, status_of r))).
  { intros o. rewrite run_command.
    change (listener "new" (commands w))
      with (Some (λ (args : list string) (options : gmap string jsval),
                    new_action w (arg args 0) options)).
    cbv beta iota. unfold new_action. rewrite Hname. reflexivity. }
  split; [apply H | rewrite !H; reflexivity].
Qed.

Lemma new_without_name_runs_wizard_witness :
  run (quiet_world []) (Command "new" [""] (<["material" := JBool true]> ∅)) [Line "app"] =
  run (quiet_world []) (Command "new" [""] ∅) [Line "app"].
Proof.
  apply (new_without_name_runs_wizard (quiet_world []) [""]
           (<["material" := JBool true]> ∅) [Line "app"]).
  reflexivity.
Defined.

(** X6: in direct mode a proxy value that [isValidProxyUrl] refuses is a
    usage error: the run prints the message that quotes the value, prints the
    help text and exits with code 1, and [newProject] is not called. *)
Theorem invalid_proxy_is_usage_error (w : World) (projectName : string) args
    (options : gmap string jsval) (input : list reply) :
  truthy (JStr projectName) = true →
  truthy (prop options "proxy") = true →
  isValidProxyUrl w (prop options "proxy") = false →
  run w (Command "new" (projectName :: args) options) input =
    ([ConsoleError
        ["ERROR:";
         "Proxy url '" +:+ js_to_string (prop options "proxy") +:+
         "' is invalid. It should be of the format: protocol://hostname:port"];
      OutputHelp], Exited 1).
Proof.
  intros Hname Hp Hv. rewrite run_new, new_action_run by exact Hname.
  rewrite Hp, Hv. reflexivity.
Qed.

Lemma invalid_proxy_is_usage_error_witness :
  run (quiet_world []) (Command "new" ["app"] (<["proxy" := JBool true]> ∅)) [] =
    ([ConsoleError
        ["ERROR:";
         "Proxy url 'true' is invalid. It should be of the format: protocol://hostname:port"];
      OutputHelp], Exited 1).
Proof.
  pose proof (invalid_proxy_is_usage_error (quiet_world []) "app" []
                (<["proxy" := JBool true]> ∅) [] eq_refl eq_refl eq_refl) as H.
  vm_compute in H. vm_compute. exact H.
Defined.

(** X7: in direct mode the dispatched options always carry the name as it
    was typed and a git field, which is false exactly when the skip-git flag
    was given; the angular and install fields are true when their flag was
    given and absent otherwise. *)
Theorem flag_mode_git_angular_install (w : World) (projectName : string) args
    (options : gmap string jsval) (input : list reply) :
  truthy (JStr projectName) = true →
  truthy (prop options "proxy") = false ∨ isValidProxyUrl w (prop options "proxy") = true →
  ∃ o, calls (fst (run w (Command "new" (projectName :: args) options) input)) = [NewProject o] ∧
    INewProjectOptions.name o = JStr projectName ∧
    INewProjectOptions.git o = Some (JBool (negb (truthy (prop options "skipGit")))) ∧
    INewProjectOptions.angular o =
      (if truthy (prop options "angular") then Some (JBool true) else None) ∧
    INewProjectOptions.install o =
      (if truthy (prop options "install") then Some (JBool true) else None).
Proof.
  intros Hname Hproxy. exists (resolved_new (JStr projectName) options).
  rewrite run_new, new_action_run by exact Hname.
  replace (truthy (prop options "proxy") && negb (isValidProxyUrl w (prop options "proxy")))
    with false by (destruct Hproxy as [-> | ->]; [reflexivity | apply eq_sym, andb_false_r]).
  rewrite wrapNew_run. split; [destruct (newProject w _); reflexivity|].
  repeat split.
Qed.

Lemma flag_mode_git_angular_install_witness :
  ∃ o, calls (fst (run (quiet_world [])
                     (Command "new" ["app"] (<["skipGit" := JBool true]> ∅)) [])) = [NewProject o] ∧
    INewProjectOptions.git o = Some (JBool false) ∧
    INewProjectOptions.angular o = None ∧
    INewProjectOptions.install o = None.
Proof.
  destruct (flag_mode_git_angular_install (quiet_world []) "app" []
              (<["skipGit" := JBool true]> ∅) [])
    as (o & Hc & _ & Hg & Ha & Hi); [reflexivity | left; reflexivity |].
  exists o. split; [exact Hc|]. split; [exact Hg|]. split; [exact Ha | exact Hi].
Defined.

(** ** The answers of the serve wizard *)

Lemma serve_prompt_answers (i : list reply) t i' answers :
  prompt [portQuestion; mtQuestion; ionQuestion] i = (t, i', Ret answers) →
  ∃ p, port_pattern p ∧
    (answers = <["multiTenant" := JBool false]> (<["port" := JStr p]> ∅) ∨
     ∃ x, answers = <["ionApi" := JBool x]>
                      (<["multiTenant" := JBool true]> (<["port" := JStr p]> ∅))).
Proof.
  unfold prompt. intros H.
  apply prompt_from_asked in H as (t1 & i1 & v1 & r1 & Ha1 & H & ->); [|reflexivity].
  apply prompt_from_asked in H as (t2 & i2 & v2 & r2 & Ha2 & H & ->); [|reflexivity].
  apply ask_input_ret in Ha1 as (p & -> & Hv1).
  apply ask_confirm_run in Ha2 as [-> Ha2]. destruct (Ha2 _ eq_refl) as (b & ->).
  exists p. split; [apply portQuestion_validate_true, Hv1|].
  destruct b.
  - apply prompt_from_asked in H as (t3 & i3 & v3 & r3 & Ha3 & H & ->); [|reflexivity].
    apply prompt_from_nil in H as (-> & -> & ->).
    apply ask_confirm_run in Ha3 as [-> Ha3]. destruct (Ha3 _ eq_refl) as (x & ->).
    right. exists x. reflexivity.
  - rewrite prompt_from_step in H.
    replace (shown ionQuestion _) with false in H by reflexivity.
    apply prompt_from_nil in H as (-> & -> & ->). left. reflexivity.
Qed.

Lemma serve_wizard_asks (i : list reply) t i' answers :
  prompt [portQuestion; mtQuestion; ionQuestion] i = (t, i', Ret answers) →
  In (Asked "port") t ∧ In (Asked "multiTenant") t.
Proof.
  unfold prompt. intros H.
  apply prompt_from_asked in H as (t1 & i1 & v1 & r1 & Ha1 & H & ->); [|reflexivity].
  apply prompt_from_asked in H as (t2 & i2 & v2 & r2 & Ha2 & H & ->); [|reflexivity].
  split; [left; reflexivity|].
  right. apply in_or_app. right. left. reflexivity.
Qed.

(** The options of a call made by the serve wizard. *)
Lemma wizard_serve_dispatch (w : World) (i : list reply) t i' r (o : IServeOptions.t) :
  inquireServeProject w i = (t, i', r) →
  In (ServeProject o) (calls t) →
  ∃ p, (port_pattern p ∧ In (Asked "port") t) ∧
    (o = {| IServeOptions.port := parseInt (JStr p);
            IServeOptions.multiTenant := JBool false;
            IServeOptions.ionApi := JBool false |} ∨
     ∃ x, o = {| IServeOptions.port := parseInt (JStr p);
                 IServeOptions.multiTenant := JBool true;
                 IServeOptions.ionApi := JBool x |}).
Proof.
  rewrite inquireServeProject_run. intros H Ho.
  destruct (prompt _ i) as [[t1 i1] [answers|e|c|]] eqn:Hp;
    pose proof (prompt_from_calls _ _ _ _ _ _ Hp) as Hc;
    try (inversion H; subst; rewrite Hc in Ho; contradiction).
  destruct (serve_prompt_answers _ _ _ _ Hp) as (p & Hpat & Hcase).
  destruct (serve_wizard_asks _ _ _ _ Hp) as [Hasked _].
  rewrite wrapServe_run in H.
  assert (Ho' : o = wizard_serve answers ∧ In (Asked "port") t).
  { destruct (existsSync w "odin.json"); [destruct (serveProject w _)|];
      inversion H; subst; rewrite calls_app, Hc in Ho; simpl in Ho;
      try contradiction; destruct Ho as [Ho|[]]; inversion Ho;
      (split; [reflexivity | apply in_or_app; left; exact Hasked]). }
  destruct Ho' as [-> Hin]. exists p. split; [split; assumption|].
  destruct Hcase as [->|[x ->]]; [left | right; exists x];
    reflexivity.
Qed.

(** ** The development server *)

(** X8: without the file [odin.json] in the working directory, [odin serve]
    with any flags prints the missing-configuration error, without the help
    text, and exits with code 1; [serveProject] is not called. *)
Theorem serve_requires_marker (w : World) args (options : gmap string jsval)
    (input : list reply) :
  existsSync w "odin.json" = false →
  run w (Command "serve" args options) input =
    ([ConsoleError ["ERROR:"; "Could not find an Odin configuration file."]], Exited 1).
Proof.
  intros He. rewrite run_serve. unfold serve_action. rewrite wrapServe_run, He. reflexivity.
Qed.

Lemma serve_requires_marker_witness :
  run (quiet_world ["src"]) (Command "serve" [] (<["port" := JStr "3000"]> ∅)) [] =
    ([ConsoleError ["ERROR:"; "Could not find an Odin configuration file."]], Exited 1).
Proof.
  apply (serve_requires_marker (quiet_world ["src"]) [] (<["port" := JStr "3000"]> ∅) []).
  reflexivity.
Defined.

Lemma inquireServeProject_resolved (w : World) (i : list reply) t1 i1 answers :
  prompt [portQuestion; mtQuestion; ionQuestion] i = (t1, i1, Ret answers) →
  inquireServeProject w i =
  let '(t2, i2, r) := wrapServe w (wizard_serve answers) i1 in (t1 ++ t2, i2, r).
Proof. intros H. rewrite inquireServeProject_run, H. reflexivity. Qed.

Lemma inquireNewProject_resolved (w : World) (i : list reply) t1 i1 answers :
  prompt [nameQuestion w; frameworkQuestion; styleQuestion;
          proxyQuestion w; gitQuestion; installQuestion] i = (t1, i1, Ret answers) →
  inquireNewProject w i =
  let '(t2, i2, r) := wrapNew w (wizard_new answers) i1 in (t1 ++ t2, i2, r).
Proof. intros H. rewrite inquireNewProject_run, H. reflexivity. Qed.

(** X9: in the serve wizard the file [odin.json] is looked for only after
    the questions: without it no run of the wizard calls [serveProject], and a
    run whose questions were all answered ends, after them, with the
    missing-configuration error and exit code 1. *)
Theorem wizard_serve_checks_marker_last (w : World) (i : list reply) t i' r :
  existsSync w "odin.json" = false →
  inquireServeProject w i = (t, i', r) →
  calls t = [] ∧
  ∀ t1 i1 answers,
    prompt [portQuestion; mtQuestion; ionQuestion] i = (t1, i1, Ret answers) →
    t = t1 ++ [ConsoleError ["ERROR:"; "Could not find an Odin configuration file."]] ∧
    r = Exit 1 ∧ In (Asked "port") t1 ∧ In (Asked "multiTenant") t1.
Proof.
  intros He H. split.
  - rewrite inquireServeProject_run in H.
    destruct (prompt _ i) as [[t1 i1] [answers|e|c|]] eqn:Hp;
      pose proof (prompt_from_calls _ _ _ _ _ _ Hp) as Hc;
      try (inversion H; subst; exact Hc).
    rewrite wrapServe_run, He in H. inversion H; subst.
    rewrite calls_app, Hc. reflexivity.
  - intros t1 i1 answers Hp.
    rewrite (inquireServeProject_resolved w _ _ _ _ Hp), wrapServe_run, He in H.
    inversion H; subst. split; [reflexivity|]. split; [reflexivity|].
    destruct (serve_wizard_asks _ _ _ _ Hp) as [H1 H2]. split; assumption.
Qed.

Lemma wizard_serve_checks_marker_last_witness :
  calls (fst (fst (inquireServeProject (quiet_world []) [Line "3000"; Line "n"]))) = [].
Proof.
  destruct (inquireServeProject (quiet_world []) [Line "3000"; Line "n"])
    as [[t i'] r] eqn:H.
  apply (wizard_serve_checks_marker_last (quiet_world []) _ _ _ _ eq_refl H).
Defined.

(** X10: in direct mode, in a project directory, the multi-tenant and
    ion-api flags reach [serveProject] as booleans, each on its own: the
    ion-api flag is passed on whether or not the multi-tenant flag is given. *)
Theorem serve_flags_are_independent (w : World) args (options : gmap string jsval)
    (input : list reply) :
  existsSync w "odin.json" = true →
  ∃ o, calls (fst (run w (Command "serve" args options) input)) = [ServeProject o] ∧
    IServeOptions.multiTenant o = JBool (truthy (prop options "multiTenant")) ∧
    IServeOptions.ionApi o = JBool (truthy (prop options "ionApi")).
Proof.
  intros He. rewrite run_serve. unfold serve_action. rewrite wrapServe_run, He.
  eexists. split; [destruct (serveProject w _); reflexivity|]. split; reflexivity.
Qed.

Lemma serve_flags_are_independent_witness :
  ∃ o, calls (fst (run (quiet_world ["odin.json"])
                     (Command "serve" [] (<["ionApi" := JBool true]> ∅)) [])) = [ServeProject o] ∧
    IServeOptions.multiTenant o = JBool false ∧
    IServeOptions.ionApi o = JBool true.
Proof.
  destruct (serve_flags_are_independent (quiet_world ["odin.json"]) []
              (<["ionApi" := JBool true]> ∅) [] eq_refl) as (o & Hc & Hm & Hi).
  exists o. split; [exact Hc | split; [exact Hm | exact Hi]].
Defined.

(** X11: the options that the serve wizard hands to [serveProject] hold
    booleans for multi-tenant and ion-api, and ion-api is true only together
    with multi-tenant. *)
Theorem wizard_serve_ion_needs_multi_tenant (w : World) (i : list reply) t i' r
    (o : IServeOptions.t) :
  inquireServeProject w i = (t, i', r) →
  In (ServeProject o) (calls t) →
  (∃ b, IServeOptions.multiTenant o = JBool b) ∧
  (∃ b, IServeOptions.ionApi o = JBool b) ∧
  (IServeOptions.ionApi o = JBool true → IServeOptions.multiTenant o = JBool true).
Proof.
  intros H Ho. destruct (wizard_serve_dispatch _ _ _ _ _ _ H Ho) as (p & _ & [->| [x ->]]).
  - split; [eexists; reflexivity|]. split; [eexists; reflexivity|]. discriminate.
  - split; [eexists; reflexivity|]. split; [eexists; reflexivity|]. reflexivity.
Qed.

Lemma wizard_serve_ion_needs_multi_tenant_witness :
  ∃ b, IServeOptions.multiTenant
         {| IServeOptions.port := JNum 3000; IServeOptions.multiTenant := JBool true;
            IServeOptions.ionApi := JBool true |} = JBool b.
Proof.
  eapply (wizard_serve_ion_needs_multi_tenant (quiet_world ["odin.json"])
            [Line "3000"; Line "y"; Line "y"]).
  - vm_compute. reflexivity.
  - vm_compute. left. reflexivity.
Defined.

Lemma digits_prefix_value (s : string) (acc : option Z) :
  forallb is_digit (list_ascii_of_string s) = true →
  (acc = None → s ≠ "") →
  digits_prefix acc s =
    Some (fold_left (λ a c, 10 * a + digit_value c)%Z (list_ascii_of_string s)
            (default 0%Z acc)).
Proof.
  revert acc. induction s as [|c s IH]; intros acc Hall Hne; simpl.
  - destruct acc as [a|]; [reflexivity | elim (Hne eq_refl); reflexivity].
  - simpl in Hall. apply andb_true_iff in Hall as [Hc Hall]. rewrite Hc.
    rewrite IH; [reflexivity | exact Hall | discriminate].
Qed.

Lemma parseInt_decimal (p : string) :
  port_pattern p → parseInt (JStr p) = JNum (decimal_value p).
Proof.
  intros Hp. apply port_pattern_spec in Hp. unfold match_plus in Hp.
  apply andb_true_iff in Hp as [Hne Hall].
  destruct p as [|c p]; [discriminate Hne|].
  pose proof Hall as Hall'. simpl in Hall'. apply andb_true_iff in Hall' as [Hc _].
  destruct (digit_facts c Hc) as (Hs & Hm & Hplus & _).
  unfold parseInt. simpl js_to_string. simpl skip_spaces. rewrite Hs, Hm, Hplus.
  rewrite (digits_prefix_value (String c p) None Hall) by discriminate.
  reflexivity.
Qed.

Lemma decimal_fold_bound (l : list ascii) (a : Z) :
  forallb is_digit l = true → (0 ≤ a)%Z →
  (0 ≤ fold_left (λ a c, 10 * a + digit_value c) l a
   ∧ fold_left (λ a c, 10 * a + digit_value c) l a + 1 ≤ (a + 1) * 10 ^ Z.of_nat (length l))%Z.
Proof.
  revert a. induction l as [|c l IH]; intros a Hall Ha; simpl fold_left.
  - simpl. lia.
  - simpl in Hall. apply andb_true_iff in Hall as [Hc Hall].
    assert (Hd : (0 ≤ digit_value c ≤ 9)%Z).
    { destruct c as [[] [] [] [] [] [] [] []]; try discriminate Hc; vm_compute;
        split; discriminate. }
    destruct (IH (10 * a + digit_value c)%Z Hall ltac:(lia)) as [H0 H1].
    split; [exact H0|].
    replace (Z.of_nat (length (c :: l))) with (Z.succ (Z.of_nat (length l)))
      by (simpl length; lia).
    rewrite Z.pow_succ_r by lia.
    assert (Hpow : (0 < 10 ^ Z.of_nat (length l))%Z) by (apply Z.pow_pos_nonneg; lia).
    nia.
Qed.

Lemma decimal_value_bound (p : string) :
  port_pattern p → String.length p ≤ 15 →
  (0 ≤ decimal_value p < 10 ^ 15)%Z.
Proof.
  intros Hp Hlen. apply port_pattern_spec in Hp. unfold match_plus in Hp.
  apply andb_true_iff in Hp as [_ Hall].
  destruct (decimal_fold_bound _ 0%Z Hall ltac:(lia)) as [H0 H1].
  fold (decimal_value p) in H0, H1. split; [exact H0|].
  assert (Hl : length (list_ascii_of_string p) = String.length p).
  { clear. induction p as [|c p IH]; simpl; [reflexivity | rewrite IH; reflexivity]. }
  rewrite Hl in H1.
  assert (Hmono : (10 ^ Z.of_nat (String.length p) ≤ 10 ^ 15)%Z)
    by (apply Z.pow_le_mono_r; lia).
  lia.
Qed.

(** The confirm questions of the serve wizard leave the port answer alone. *)
Lemma confirm_questions_keep_port (a : gmap string jsval) (i : list reply) t i' answers :
  prompt_from a [mtQuestion; ionQuestion] i = (t, i', Ret answers) →
  answers !! "port" = a !! "port".
Proof.
  intros H.
  apply prompt_from_asked in H as (t1 & i1 & v1 & r1 & _ & H & _); [|reflexivity].
  rewrite prompt_from_step in H. destruct (shown ionQuestion _).
  - destruct (ask ionQuestion i1) as [[t2 i2] [v2|e|c|]]; try discriminate H.
    cbn [prompt_from] in H. unfold mret, M_ret in H. inversion H; subst.
    rewrite !lookup_insert_ne by discriminate. reflexivity.
  - apply prompt_from_nil in H as (_ & _ & ->).
    rewrite lookup_insert_ne by discriminate. reflexivity.
Qed.

(** The options of a call of the serve wizard are built from its answers. *)
Lemma wizard_serve_call (w : World) (i : list reply) t i' r (o : IServeOptions.t) :
  inquireServeProject w i = (t, i', r) →
  In (ServeProject o) (calls t) →
  ∃ t1 i1 answers,
    prompt [portQuestion; mtQuestion; ionQuestion] i = (t1, i1, Ret answers) ∧
    o = wizard_serve answers.
Proof.
  rewrite inquireServeProject_run. intros H Ho.
  destruct (prompt _ i) as [[t1 i1] [answers|e|c|]] eqn:Hp;
    pose proof (prompt_from_calls _ _ _ _ _ _ Hp) as Hc;
    try (inversion H; subst; rewrite Hc in Ho; contradiction).
  exists t1, i1, answers. split; [reflexivity|].
  rewrite wrapServe_run in H.
  destruct (existsSync w "odin.json"); [destruct (serveProject w _)|];
    inversion H; subst; rewrite calls_app, Hc in Ho; simpl in Ho;
    try contradiction; destruct Ho as [Ho|[]]; inversion Ho; reflexivity.
Qed.

(** X12: when the answer [p] that the port question of the serve wizard
    accepted has at most 15 digits, the port handed to [serveProject] is the
    number that the digits of [p] spell: the string is parsed.  (Up to 15
    digits the number is below 2^53, where the doubles of the code are
    exact.) *)
Theorem wizard_serve_port_parsed (w : World) (i : list reply) tp ip (p : string)
    t i' r (o : IServeOptions.t) :
  ask portQuestion i = (tp, ip, Ret (JStr p)) →
  String.length p ≤ 15 →
  inquireServeProject w i = (t, i', r) →
  In (ServeProject o) (calls t) →
  port_pattern p ∧
  IServeOptions.port o = JNum (decimal_value p) ∧
  (0 ≤ decimal_value p < 10 ^ 15)%Z.
Proof.
  intros Hask Hlen H Ho.
  assert (Hp : port_pattern p).
  { apply ask_input_ret in Hask as (value & Heq & Hv). inversion Heq; subst value.
    apply portQuestion_validate_true, Hv. }
  destruct (wizard_serve_call _ _ _ _ _ _ H Ho) as (t1 & i1 & answers & Hprompt & ->).
  rewrite (serve_prompt_after_port _ _ _ _ Hask) in Hprompt.
  destruct (prompt_from _ [mtQuestion; ionQuestion] ip) as [[t2 i2] r2] eqn:Hrest.
  inversion Hprompt; subst.
  apply confirm_questions_keep_port in Hrest.
  rewrite lookup_insert_eq in Hrest.
  split; [exact Hp|]. split; [|apply decimal_value_bound; assumption].
  unfold wizard_serve, prop. simpl. rewrite Hrest. simpl.
  apply parseInt_decimal, Hp.
Qed.

Lemma wizard_serve_port_parsed_witness :
  IServeOptions.port
    {| IServeOptions.port := JNum 8081; IServeOptions.multiTenant := JBool false;
       IServeOptions.ionApi := JBool false |} = JNum (decimal_value "8081").
Proof.
  eapply (wizard_serve_port_parsed (quiet_world ["odin.json"]) [Line "8081"; Line ""]
            [] [Line ""] "8081").
  - reflexivity.
  - vm_compute. lia.
  - vm_compute. reflexivity.
  - vm_compute. left. reflexivity.
Defined.



(** ** Configuration and collaborator errors *)

(** X14: [odin set <key> <value>] hands any key and any value to
    [setConfiguration] as they are, without checking the key, whatever the
    working directory holds; when the call completes nothing is printed and
    the process ends normally. *)
Theorem set_passes_key_and_value (w : World) (key value : string) args
    (options : gmap string jsval) (input : list reply) :
  calls (fst (run w (Command "set" (key :: value :: args) options) input)) =
    [SetConfiguration key value] ∧
  (setConfiguration w key value = None →
   run w (Command "set" (key :: value :: args) options) input =
     ([Invoke (SetConfiguration key value)], Completed)).
Proof.
  rewrite run_command.
  change (listener "set" (commands w)) with
    (Some (λ (args : list string) (_ : gmap string jsval),
             match args with
             | key :: value :: _ => set_action w key value
             | [_] => missingArgument "value"
             | [] => missingArgument "key"
             end)).
  cbv beta iota. rewrite set_action_run.
  destruct (setConfiguration w key value); split; try reflexivity. discriminate.
Qed.

Lemma set_passes_key_and_value_witness :
  run (quiet_world []) (Command "set" ["colour"; "blue"] ∅) [] =
    ([Invoke (SetConfiguration "colour" "blue")], Completed).
Proof.
  apply (set_passes_key_and_value (quiet_world []) "colour" "blue" [] ∅ []).
  reflexivity.
Defined.

(** X15: when [setConfiguration] raises, [odin set] prints the error and
    the summary [Configuration failed], prints no help text and exits with
    code 1. *)
Theorem set_error_is_terminal (w : World) (key value : string) args
    (options : gmap string jsval) (input : list reply) (e : error) :
  setConfiguration w key value = Some e →
  run w (Command "set" (key :: value :: args) options) input =
    ([Invoke (SetConfiguration key value); ConsoleError [e];
      ConsoleError ["ERROR:"; "Configuration failed"]], Exited 1) ∧
  ¬ In OutputHelp (fst (run w (Command "set" (key :: value :: args) options) input)).
Proof.
  intros He. rewrite (set_error_terminal w key value args options input e He).
  split; [reflexivity|]. simpl. intros [H|[H|[H|[]]]]; discriminate H.
Qed.

Lemma set_error_is_terminal_witness :
  run (failing_world [] "read-only file") (Command "set" ["name"; "shop"] ∅) [] =
    ([Invoke (SetConfiguration "name" "shop"); ConsoleError ["read-only file"];
      ConsoleError ["ERROR:"; "Configuration failed"]], Exited 1).
Proof.
  apply (set_error_is_terminal (failing_world [] "read-only file") "name" "shop" [] ∅ []
           "read-only file").
  reflexivity.
Defined.

(** X16: when [newProject] raises, in direct mode and in the wizard alike,
    the run ends with the call, the error, the summary
    [Failed to create new project] and exit code 1; the lines that tell how
    to continue are not printed. *)
Theorem newProject_error_is_terminal (w : World) (e : error) :
  (∀ (projectName : string) args (options : gmap string jsval) (input : list reply),
     truthy (JStr projectName) = true →
     truthy (prop options "proxy") = false ∨ isValidProxyUrl w (prop options "proxy") = true →
     newProject w (resolved_new (JStr projectName) options) = Some e →
     run w (Command "new" (projectName :: args) options) input =
       ([Invoke (NewProject (resolved_new (JStr projectName) options));
         ConsoleError [e]; ConsoleError ["ERROR:"; "Failed to create new project"]],
        Exited 1)) ∧
  (∀ (i : list reply) t1 i1 answers,
     prompt [nameQuestion w; frameworkQuestion; styleQuestion;
             proxyQuestion w; gitQuestion; installQuestion] i = (t1, i1, Ret answers) →
     newProject w (wizard_new answers) = Some e →
     inquireNewProject w i =
       (t1 ++ [Invoke (NewProject (wizard_new answers));
               ConsoleError [e]; ConsoleError ["ERROR:"; "Failed to create new project"]],
        i1, Exit 1)).
Proof.
  split.
  - intros projectName args options input Hname Hproxy He.
    apply new_error_terminal; assumption.
  - intros i t1 i1 answers Hp He.
    rewrite (inquireNewProject_resolved w _ _ _ _ Hp), wrapNew_run, He. reflexivity.
Qed.

Lemma newProject_error_is_terminal_witness :
  run (failing_world [] "disk full") (Command "new" ["app"] ∅) [] =
    ([Invoke (NewProject (resolved_new (JStr "app") ∅));
      ConsoleError ["disk full"]; ConsoleError ["ERROR:"; "Failed to create new project"]],
     Exited 1).
Proof.
  apply (newProject_error_is_terminal (failing_world [] "disk full") "disk full");
    [reflexivity | left; reflexivity | reflexivity].
Defined.

(** X17: when [serveProject] raises in a project directory, in direct mode
    and in the wizard alike, the run ends with the call, the error, the
    summary [Serving was aborted because of an error] and exit code 1,
    without the help text. *)
Theorem serveProject_error_is_terminal (w : World) (e : error) :
  existsSync w "odin.json" = true →
  (∀ args (options : gmap string jsval) (input : list reply) o,
     o = {| IServeOptions.port := js_or (prop options "port") (JNum 8080);
            IServeOptions.multiTenant := Boolean (prop options "multiTenant");
            IServeOptions.ionApi := Boolean (prop options "ionApi") |} →
     serveProject w o = Some e →
     run w (Command "serve" args options) input =
       ([ConsoleLog ["Starting Dev Server..."]; Invoke (ServeProject o); ConsoleError [e];
         ConsoleError ["ERROR:"; "Serving was aborted because of an error"]], Exited 1)) ∧
  (∀ (i : list reply) t1 i1 answers,
     prompt [portQuestion; mtQuestion; ionQuestion] i = (t1, i1, Ret answers) →
     serveProject w (wizard_serve answers) = Some e →
     inquireServeProject w i =
       (t1 ++ [ConsoleLog ["Starting Dev Server..."];
               Invoke (ServeProject (wizard_serve answers)); ConsoleError [e];
               ConsoleError ["ERROR:"; "Serving was aborted because of an error"]],
        i1, Exit 1)).
Proof.
  intros Hex. split.
  - intros args options input o -> He.
    rewrite run_serve. unfold serve_action.
    rewrite (serve_error_terminal w _ input e Hex He). reflexivity.
  - intros i t1 i1 answers Hp He.
    rewrite (inquireServeProject_resolved w _ _ _ _ Hp).
    rewrite (serve_error_terminal w _ i1 e Hex He). reflexivity.
Qed.

Lemma serveProject_error_is_terminal_witness :
  run (failing_world ["odin.json"] "port in use") (Command "serve" [] ∅) [] =
    ([ConsoleLog ["Starting Dev Server..."];
      Invoke (ServeProject {| IServeOptions.port := JNum 8080;
                              IServeOptions.multiTenant := JBool false;
                              IServeOptions.ionApi := JBool false |});
      ConsoleError ["port in use"];
      ConsoleError ["ERROR:"; "Serving was aborted because of an error"]], Exited 1).
Proof.
  apply (serveProject_error_is_terminal (failing_world ["odin.json"] "port in use")
           "port in use" eq_refl); reflexivity.
Defined.

(** ** The wizards *)

Lemma questions_asked_app (t1 t2 : list event) :
  questions_asked (t1 ++ t2) = questions_asked t1 ++ questions_asked t2.
Proof. unfold questions_asked. apply omap_app. Qed.

Lemma ask_asks_nothing (q : Question.t) (i : list reply) t i' r :
  ask q i = (t, i', r) → questions_asked t = [].
Proof.
  intros H. apply ask_trace in H.
  induction H as [|e l [m ->] _ IH]; [reflexivity | exact IH].
Qed.

(** A sequence of questions without [when]: they are asked in the order of
    the list, as far as the run gets, and all of them when it resolves. *)
Lemma unconditional_questions_in_order (a : gmap string jsval) (qs : list Question.t)
    (i : list reply) t i' r :
  Forall (λ q, Question.when q = None) qs →
  prompt_from a qs i = (t, i', r) →
  questions_asked t `prefix_of` map Question.name qs ∧
  (∀ a', r = Ret a' → questions_asked t = map Question.name qs).
Proof.
  intros Hall. revert a i t i' r.
  induction Hall as [|q qs Hq _ IH]; intros a i t i' r H.
  - inversion H; subst. split; [apply prefix_nil | reflexivity].
  - rewrite prompt_from_step in H. unfold shown in H. rewrite Hq in H.
    destruct (ask q i) as [[t1 i1] r1] eqn:Hask.
    pose proof (ask_asks_nothing _ _ _ _ _ Hask) as Hnone.
    assert (Hstop : ∀ (r0 : outcome (gmap string jsval)),
              (∀ a', r0 ≠ Ret a') →
              questions_asked (Asked (Question.name q) :: t1) `prefix_of`
                map Question.name (q :: qs) ∧
              (∀ a', r0 = Ret a' →
                 questions_asked (Asked (Question.name q) :: t1) = map Question.name (q :: qs))).
    { intros r0 Hr0. simpl. rewrite Hnone. split.
      - apply prefix_cons, prefix_nil.
      - intros a' Ha'. elim (Hr0 a' Ha'). }
    destruct r1 as [v|e|c|];
      try (inversion H; subst; apply Hstop; intros a'; discriminate).
    destruct (prompt_from _ qs i1) as [[t2 i2] r2] eqn:Hrest.
    destruct (IH _ _ _ _ _ Hrest) as [Hpre Hall']. inversion H; subst.
    change (Asked (Question.name q) :: t1 ++ t2)
      with ([Asked (Question.name q)] ++ t1 ++ t2).
    rewrite !questions_asked_app, Hnone. simpl. split.
    + apply prefix_cons. exact Hpre.
    + intros a' Ha'. f_equal. eapply Hall'. exact Ha'.
Qed.

(** X18: every run of the new-project wizard asks for the name, the
    framework, the style, the proxy, git and the installation, in this order
    and without leaving one out: a run that stops at a question has asked a
    first part of this list, every other run has asked all six before it goes
    on to [newProject]. *)
Theorem new_wizard_question_order (w : World) (i : list reply) t i' r :
  inquireNewProject w i = (t, i', r) →
  questions_asked t `prefix_of`
    ["projectName"; "framework"; "style"; "proxy"; "git"; "install"] ∧
  (r ≠ Blocked →
   questions_asked t = ["projectName"; "framework"; "style"; "proxy"; "git"; "install"]).
Proof.
  rewrite inquireNewProject_run. intros H.
  destruct (prompt _ i) as [[t1 i1] r1] eqn:Hp. unfold prompt in Hp.
  destruct (prompt_from_prompts_only _ _ _ _ _ _ Hp) as [_ Hr].
  apply unconditional_questions_in_order in Hp; [|repeat constructor].
  destruct Hp as [Hpre Hall].
  destruct r1 as [answers|e|c|]; try (destruct Hr as [Hr|[? Hr]]; discriminate Hr).
  - rewrite wrapNew_run in H.
    assert (Ht : questions_asked t = questions_asked t1).
    { destruct (newProject w _); inversion H; subst;
        rewrite questions_asked_app, app_nil_r; reflexivity. }
    rewrite Ht, (Hall _ eq_refl). split; [reflexivity | intros _; reflexivity].
  - inversion H; subst. split; [exact Hpre | intros Hb; elim Hb; reflexivity].
Qed.

Lemma new_wizard_question_order_witness :
  questions_asked
    (fst (fst (inquireNewProject (quiet_world [])
                 [Line "my app"; Line "app"; Pick 1; Pick 2; Line ""; Line "n"; Line "y"]))) =
  ["projectName"; "framework"; "style"; "proxy"; "git"; "install"].
Proof.
  destruct (inquireNewProject (quiet_world [])
              [Line "my app"; Line "app"; Pick 1; Pick 2; Line ""; Line "n"; Line "y"])
    as [[t i'] r] eqn:H.
  destruct (new_wizard_question_order (quiet_world []) _ _ _ _ H) as [_ Hall].
  apply Hall. vm_compute in H. inversion H. discriminate.
Defined.

(** X19: the options that the new-project wizard hands to [newProject] are
    complete: the style is one of soho, material and none, the angular, git
    and install fields are present and hold booleans, and the proxy target is
    a string that [isValidProxyUrl] accepts. *)
Theorem wizard_new_options_complete (w : World) (i : list reply) t i' r
    (o : INewProjectOptions.t) :
  inquireNewProject w i = (t, i', r) →
  In (NewProject o) (calls t) →
  In (INewProjectOptions.style o) [JStr "soho"; JStr "material"; JStr "none"] ∧
  (∃ b, INewProjectOptions.angular o = Some (JBool b)) ∧
  (∃ b, INewProjectOptions.git o = Some (JBool b)) ∧
  (∃ b, INewProjectOptions.install o = Some (JBool b)) ∧
  (∃ u, INewProjectOptions.proxy o = Some {| target := JStr u |} ∧
        isValidProxyUrl w (JStr u) = true).
Proof.
  intros H Ho. apply inquireNewProject_calls in H.
  destruct (prompt _ i) as [[t1 i1] [answers|e|c|]] eqn:Hp;
    rewrite H in Ho; try contradiction.
  destruct Ho as [Ho|[]]. inversion Ho; subst o.
  destruct (new_prompt_answers _ _ _ _ _ Hp)
    as (n & fw & st & u & g & ins & -> & _ & Hu & _ & Hst & _).
  split; [|split; [|split; [|split]]].
  - destruct Hst as [<-|[<-|[<-|[]]]]; simpl; auto.
  - eexists; reflexivity.
  - exists g; reflexivity.
  - exists ins; reflexivity.
  - exists u. split; [reflexivity|].
    apply proxyQuestion_validate_true, Hu.
Qed.

Lemma wizard_new_options_complete_witness :
  In (JStr "none") [JStr "soho"; JStr "material"; JStr "none"].
Proof.
  eapply (wizard_new_options_complete (quiet_world [])
            [Line "app"; Pick 1; Pick 2; Line ""; Line "n"; Line "y"] _ _ _
            {| INewProjectOptions.name := JStr "app";
               INewProjectOptions.style := JStr "none";
               INewProjectOptions.proxy := Some {| target := JStr "https://example.com:8080" |};
               INewProjectOptions.git := Some (JBool false);
               INewProjectOptions.angular := Some (JBool false);
               INewProjectOptions.install := Some (JBool true) |}).
  - vm_compute. reflexivity.
  - vm_compute. left. reflexivity.
Defined.

(** X20: at the top-level wizard the first entry leads into the
    new-project wizard and the second into the serve wizard, with the replies
    that follow the choice. *)
Theorem wizard_choice_dispatch (w : World) (rest : list reply) :
  run w NoArguments (Pick 0 :: rest) =
    (let '(t, _, r) := inquireNewProject w rest in (Asked "command" :: t, status_of r)) ∧
  run w NoArguments (Pick 1 :: rest) =
    (let '(t, _, r) := inquireServeProject w rest in (Asked "command" :: t, status_of r)).
Proof.
  split.
  - unfold run, main, when_, inquireCommand.
    unfold mbind at 1. unfold M_bind at 1.
    unfold mbind at 1. unfold M_bind at 1.
    replace (prompt [commandQuestion] (Pick 0 :: rest))
      with ([Asked "command"], rest, Ret (<["command" := JStr "new"]> (∅ : gmap string jsval)))
      by reflexivity.
    replace (prop (<["command" := JStr "new"]> ∅) "command") with (JStr "new")
      by reflexivity.
    replace (bool_decide (JStr "new" = JStr "new")) with true by reflexivity.
    cbv beta iota zeta.
    destruct (inquireNewProject w rest) as [[t i'] [[]|e|c|]]; simpl;
      rewrite ?app_nil_r; reflexivity.
  - unfold run, main, when_, inquireCommand.
    unfold mbind at 1. unfold M_bind at 1.
    unfold mbind at 1. unfold M_bind at 1.
    replace (prompt [commandQuestion] (Pick 1 :: rest))
      with ([Asked "command"], rest, Ret (<["command" := JStr "serve"]> (∅ : gmap string jsval)))
      by reflexivity.
    replace (prop (<["command" := JStr "serve"]> ∅) "command") with (JStr "serve")
      by reflexivity.
    replace (bool_decide (JStr "serve" = JStr "new")) with false by reflexivity.
    replace (bool_decide (JStr "serve" = JStr "serve")) with true by reflexivity.
    cbv beta iota zeta.
    destruct (inquireServeProject w rest) as [[t i'] [[]|e|c|]]; simpl;
      rewrite ?app_nil_r; reflexivity.
Qed.

(** X22: the port validator accepts exactly the non-empty strings of
    digits, whatever number they spell, and gives every other string the
    same reason. *)
Theorem port_validator_verdicts (port : string) :
  (port_pattern port → portQuestion_validate port = JBool true) ∧
  (¬ port_pattern port →
     portQuestion_validate port = JStr "The port must be a number, e.g 8080").
Proof.
  rewrite <- port_pattern_spec. unfold portQuestion_validate.
  destruct (match_plus is_digit port); simpl; split; intros H;
    try reflexivity; try discriminate; elim H; reflexivity.
Qed.

Lemma port_validator_verdicts_witness :
  portQuestion_validate "0" = JBool true ∧
  portQuestion_validate "99999999" = JBool true ∧
  portQuestion_validate "80 80" = JStr "The port must be a number, e.g 8080".
Proof.
  split; [|split].
  - apply (port_validator_verdicts "0"). apply port_pattern_spec. reflexivity.
  - apply (port_validator_verdicts "99999999"). apply port_pattern_spec. reflexivity.
  - apply (port_validator_verdicts "80 80"). intros H.
    apply port_pattern_spec in H. discriminate H.
Defined.

(** X23: the proxy URL is judged alike in both modes: the wizard accepts a
    URL at its proxy question exactly when [odin new] with that URL as its
    proxy option goes on to call [newProject]. *)
Theorem proxy_checked_alike (w : World) (u projectName : string) args
    (options : gmap string jsval) (input : list reply) :
  u ≠ "" →
  truthy (JStr projectName) = true →
  options !! "proxy" = Some (JStr u) →
  proxyQuestion_validate w u = JBool true ↔
  ∃ o, calls (fst (run w (Command "new" (projectName :: args) options) input)) = [NewProject o].
Proof.
  intros Hne Hname Hopt.
  assert (Hprop : prop options "proxy" = JStr u) by (unfold prop; rewrite Hopt; reflexivity).
  assert (Ht : truthy (JStr u) = true).
  { simpl. destruct (String.eqb_spec u ""); [contradiction | reflexivity]. }
  rewrite proxyQuestion_validate_true, run_new, new_action_run by exact Hname.
  rewrite Hprop, Ht. simpl andb.
  destruct (isValidProxyUrl w (JStr u)); simpl.
  - split; [intros _ | reflexivity].
    rewrite wrapNew_run. eexists. destruct (newProject w _); reflexivity.
  - split; [discriminate | intros [o Ho]; discriminate Ho].
Qed.

Lemma proxy_checked_alike_witness :
  ∃ o, calls (fst (run (quiet_world [])
                     (Command "new" ["app"] (<["proxy" := JStr "https://m3.example.com:54008"]> ∅))
                     [])) = [NewProject o].
Proof.
  apply (proxy_checked_alike (quiet_world []) "https://m3.example.com:54008" "app" []
           (<["proxy" := JStr "https://m3.example.com:54008"]> ∅) []);
    [discriminate | reflexivity | reflexivity | reflexivity].
Defined.
